(** * align_audio: the anchor detection core of [align_first_anchor.py]

    A shallow embedding of the numeric core of the repository: the amplitude
    gate, the cross-correlation offset estimator, the content-template
    estimator, the analysis window builder and the FFmpeg shift command
    builder, followed by the properties the specification states about them.

    Modelling conventions:
    - a NumPy array of samples is a [list Q]; Python floats are exact
      rationals, so NaN and infinities are outside the model, and so is
      rounding error, except in the module [Rounded], which takes the
      routines that round as parameters;
    - a sample rate and every sample index is a [Z];
    - [np.sqrt], [np.log10] and the librosa feature extraction are parameters
      of the sections that use them;
    - a Python exception is a [Raise] value of the [result] type. *)

From Stdlib Require Import ZArith QArith Qround Qabs.
From Stdlib Require Import List Sorted String Ascii Bool Lia Lqa.
From Stdlib Require Import Numbers.DecimalString.
Import ListNotations.

Set Implicit Arguments.

(** ** Exceptions *)

Inductive exn : Type :=
| ValueError (msg : string)
| IndexError (msg : string)
| ZeroDivisionError.

Inductive result (A : Type) : Type :=
| Ok (v : A)
| Raise (e : exn).

Arguments Ok {A} v.
Arguments Raise {A} e.

Definition bind {A B : Type} (r : result A) (k : A -> result B) : result B :=
  match r with
  | Ok v => k v
  | Raise e => Raise e
  end.

Notation "x <- r ;; k" := (bind r (fun x => k))
  (at level 61, r at next level, right associativity).

(** ** Python primitives *)

Module Py.

Open Scope Q_scope.

(** [x < y] on floats, as a test. *)
Definition ltb (x y : Q) : bool := negb (Qle_bool y x).

(** [x >= y] on floats, as a test. *)
Definition geb (x y : Q) : bool := Qle_bool y x.

(** [int(x)]: truncation toward zero. *)
Definition int (x : Q) : Z := Z.quot (Qnum x) (Zpos (Qden x)).

(** [round(x)]: nearest integer, ties to the even one. *)
Definition round (x : Q) : Z :=
  let f := Qfloor x in
  let r := x - inject_Z f in
  if ltb r (1 # 2) then f
  else if ltb (1 # 2) r then (f + 1)%Z
  else if Z.even f then f else (f + 1)%Z.

(** [max(a, b)] of the builtins: the first of the largest. *)
Definition max (a b : Q) : Q := if ltb a b then b else a.

(** [str(n)] for an [int]. *)
Definition str (n : Z) : string := NilZero.string_of_int (Z.to_int n).

Fixpoint zeros (k : nat) : string :=
  match k with
  | O => EmptyString
  | S k' => String "0"%char (zeros k')
  end.

(** Left padding with the digit 0 up to [width] characters. *)
Definition zfill (width : nat) (s : string) : string :=
  (zeros (width - String.length s) ++ s)%string.

(** The digits of [n] millionths, as a decimal with six places. *)
Definition render6 (n : Z) : string :=
  (str (n / 1000000) ++ "." ++ zfill 6 (str (n mod 1000000)))%string.

(** [f"{x:.6f}"] for [x >= 0]: correctly rounded to six decimals. *)
Definition format_6f (x : Q) : string := render6 (round (x * 1000000)).

(** [x or default] for an [Optional[str]]: [None] and the empty string are
    falsy. *)
Definition or_default (x : option string) (default : string) : string :=
  match x with
  | None => default
  | Some EmptyString => default
  | Some s => s
  end.

(** [len(l)] *)
Definition len {A : Type} (l : list A) : Z := Z.of_nat (List.length l).

(** Normalisation of a slice bound against a length [n]. *)
Definition clamp_index (n i : Z) : Z :=
  if (i <? 0)%Z then Z.max 0 (i + n) else Z.min i n.

(** [l[start:stop]] *)
Definition slice {A : Type} (l : list A) (start stop : Z) : list A :=
  let n := len l in
  let lo := clamp_index n start in
  let hi := clamp_index n stop in
  firstn (Z.to_nat (hi - lo)) (skipn (Z.to_nat lo) l).

(** [l[start:]] *)
Definition slice_from {A : Type} (l : list A) (start : Z) : list A :=
  skipn (Z.to_nat (clamp_index (len l) start)) l.

(** [l[:stop]] *)
Definition slice_to {A : Type} (l : list A) (stop : Z) : list A :=
  firstn (Z.to_nat (clamp_index (len l) stop)) l.

(** [range(start, stop, step)] for a positive step. *)
Definition range (start stop step : Z) : list Z :=
  map (fun k => (start + Z.of_nat k * step)%Z)
      (seq 0 (Z.to_nat ((stop - start + step - 1) / step))).

(** [np.arange(start, stop, dtype=int)] *)
Definition arange (start stop : Z) : list Z :=
  map (fun k => (start + Z.of_nat k)%Z) (seq 0 (Z.to_nat (stop - start))).

End Py.

Open Scope Q_scope.

(** The floor [1e-12] added under logarithms and to norms. *)
Definition eps : Q := 1 # 1000000000000.

(** ** NumPy primitives on arrays *)

Module Np.

(** [np.sum(l)] *)
Definition sum (l : list Q) : Q := fold_right Qplus 0 l.

(** [np.mean(l)] *)
Definition mean (l : list Q) : Q := sum l / inject_Z (Py.len l).

(** Elementwise binary operation on two arrays of the same shape. *)
Fixpoint zip_with {A B C : Type} (f : A -> B -> C) (l : list A) (m : list B)
  : list C :=
  match l, m with
  | x :: l', y :: m' => f x y :: zip_with f l' m'
  | _, _ => []
  end.

(** [np.where(cond, 0.0, y)] *)
Definition where_zero (cond : list bool) (y : list Q) : list Q :=
  zip_with (fun (c : bool) s => if c then 0 else s) cond y.

(** [l[keep]] for a boolean mask [keep]. *)
Fixpoint select {A : Type} (keep : list bool) (l : list A) : list A :=
  match keep, l with
  | k :: keep', x :: l' =>
      if k then x :: select keep' l' else select keep' l'
  | _, _ => []
  end.

(** The scan of [np.argmax]: [best] is the largest value seen so far, found
    at [best_idx]; [cur] is the index of the head of [l]. *)
Fixpoint argmax_from (best : Q) (best_idx cur : nat) (l : list Q) : nat :=
  match l with
  | [] => best_idx
  | x :: l' =>
      if Py.ltb best x then argmax_from x cur (S cur) l'
      else argmax_from best best_idx (S cur) l'
  end.

(** [np.argmax(l)]: the first index of the maximum; an empty array raises. *)
Definition argmax (l : list Q) : result nat :=
  match l with
  | [] => Raise (ValueError "attempt to get argmax of an empty sequence")
  | x :: l' => Ok (argmax_from x 0 1 l')
  end.

(** [l[i]] for an index [i >= 0]; an index past the end raises. *)
Definition item {A : Type} (l : list A) (i : nat) : result A :=
  match nth_error l i with
  | Some x => Ok x
  | None => Raise (IndexError "index out of bounds")
  end.

(** The sample at a signed position, zero outside the array. *)
Definition sample (l : list Q) (i : Z) : Q :=
  if (i <? 0)%Z then 0 else nth (Z.to_nat i) l 0.

(** The value of the full cross-correlation of [a] with [b] at lag [lag]:
    the sum over [n] of [a[n + lag] * b[n]]. *)
Definition xcorr_at (a b : list Q) (lag : Z) : Q :=
  sum (map (fun n => sample a (n + lag) * sample b n) (Py.arange 0 (Py.len b))).

(** [scipy.signal.correlate(a, b, mode="full")]: entry [k] is the
    correlation at lag [k - (len b - 1)]. *)
Definition correlate_full (a b : list Q) : list Q :=
  map (fun k => xcorr_at a b (k - (Py.len b - 1)))
      (Py.arange 0 (Py.len a + Py.len b - 1)).

End Np.

(** ** The amplitude gate *)

Module Gate.
Section Gate.

Variable np_log10 : Q -> Q.

Definition apply_gate_db (y : list Q) (threshold_db : option Q) : list Q :=
  match threshold_db with
  | None => y
  | Some threshold =>
      let mag := map (fun s => Qabs s + eps) y in
      let db := map (fun m => 20 * np_log10 m) mag in
      let gated := Np.where_zero (map (fun d => Py.ltb d threshold) db) y in
      gated
  end.

End Gate.
End Gate.

(** ** The cross-correlation offset estimator *)

Module Xcorr.
Section Xcorr.

Variable np_sqrt : Q -> Q.

(** The bound of the search window, in samples. *)
Definition max_lag_samples (a0 b0 : list Q) (sr : Z) (max_search : option Q)
  : Z :=
  match max_search with
  | Some m =>
      if Py.ltb 0 m then Py.int (m * inject_Z sr)
      else (Z.min (Py.len a0) (Py.len b0) - 1)%Z
  | None => (Z.min (Py.len a0) (Py.len b0) - 1)%Z
  end.

(** The divisor of the normalisation. *)
Definition norm_denom (a0 b0 : list Q) : Q :=
  np_sqrt (Np.sum (Np.zip_with Qmult a0 a0) * Np.sum (Np.zip_with Qmult b0 b0))
  + eps.

(** Returns [(offset_sec, lags_sec, norm_corr)]. *)
Definition estimate_offset_seconds (a b : list Q) (sr : Z)
    (max_search : option Q) : result (Q * list Q * list Q) :=
  if ((Py.len a =? 0) || (Py.len b =? 0))%Z then Ok (0, [0], [1])
  else
    let a0 := map (fun x => x - Np.mean a) a in
    let b0 := map (fun x => x - Np.mean b) b in
    let corr_full := Np.correlate_full a0 b0 in
    let lags_full := Py.arange (- Py.len b0 + 1) (Py.len a0) in
    let max_lag := max_lag_samples a0 b0 sr max_search in
    let keep :=
      map (fun l => ((- max_lag <=? l) && (l <=? max_lag))%Z) lags_full in
    let corr := Np.select keep corr_full in
    let lags := Np.select keep lags_full in
    let denom := norm_denom a0 b0 in
    let corr_norm := map (fun c => c / denom) corr in
    best_idx <- Np.argmax corr_norm ;;
    best_lag <- Np.item lags best_idx ;;
    if (sr =? 0)%Z then Raise ZeroDivisionError
    else
      let offset_sec := - inject_Z best_lag / inject_Z sr in
      Ok (offset_sec, map (fun l => inject_Z l / inject_Z sr) lags, corr_norm).

End Xcorr.
End Xcorr.

(** ** The content-template estimator *)

Module Content.
Section Content.

Variable np_sqrt : Q -> Q.

(** [np.mean(librosa.feature.mfcc(y=seg, sr=sr, n_mfcc=20), axis=1)] *)
Variable mfcc_mean : list Q -> Z -> list Q.

(** [np.dot(v1, v2)] *)
Definition dot (v1 v2 : list Q) : Q := Np.sum (Np.zip_with Qmult v1 v2).

(** [np.linalg.norm(v)] *)
Definition norm (v : list Q) : Q := np_sqrt (dot v v).

Definition cosine (v1 v2 : list Q) : Q :=
  dot v1 v2 / (norm v1 * norm v2 + eps).

(** The similarity of the window of [b_an] that starts at [start]. *)
Definition window_sim (v1 : list Q) (b_an : list Q) (sr tmpl_len start : Z)
  : Q :=
  let seg := Py.slice b_an start (start + tmpl_len) in
  let v2 := mfcc_mean seg sr in
  cosine v1 v2.

(** The [for start in ...] loop, with its early [return]. *)
Fixpoint scan (v1 : list Q) (b_an : list Q) (sr tmpl_len : Z) (min_sim : Q)
    (starts : list Z) : result (option Q) :=
  match starts with
  | [] => Ok None
  | start :: rest =>
      let sim := window_sim v1 b_an sr tmpl_len start in
      if Py.geb sim min_sim then
        if (sr =? 0)%Z then Raise ZeroDivisionError
        else Ok (Some (inject_Z start / inject_Z sr))
      else scan v1 b_an sr tmpl_len min_sim rest
  end.

Definition find_content_anchor (a_an b_an : list Q) (sr : Z)
    (template_sec hop_sec min_sim : Q) : result (option Q) :=
  let tmpl_len := Py.int (template_sec * inject_Z sr) in
  if (Py.len a_an <? tmpl_len)%Z then Ok None
  else
    let tmpl := Py.slice_to a_an tmpl_len in
    let v1 := mfcc_mean tmpl sr in
    let hop := Z.max 1 (Py.int (hop_sec * inject_Z sr)) in
    let last_start := Z.max 0 (Py.len b_an - tmpl_len) in
    scan v1 b_an sr tmpl_len min_sim (Py.range 0 (last_start + 1) hop).

End Content.
End Content.

(** ** The analysis window builder and the choice of estimator *)

Module Window.

(** The fields of [AlignmentParameters] (the command line arguments of the
    script) that the analysis reads. *)
Record AlignmentParameters : Type := {
  anchor_mode : string;
  threshold_db : option Q;
  max_search : Q;
  ref_start_sec : Q;
  search_start_sec : Q;
  analysis_sec : Q;
  template_sec : Q;
  hop_sec : Q;
  min_sim : Q
}.

(** The truth value of a float: false for zero only. *)
Definition truthy (x : Q) : bool := negb (Qeq_bool x 0).

(** The number of samples kept on each side of the reference. *)
Definition search_pad (a_an b_an : list Q) (sr : Z) (max_search : Q) : Z :=
  if truthy max_search && Py.ltb 0 max_search then
    Py.int (max_search * inject_Z sr)
  else if (negb (Py.len a_an =? 0) && negb (Py.len b_an =? 0))%Z then
    (Z.min (Py.len a_an) (Py.len b_an) - 1)%Z
  else 0%Z.

(** The last step of the builder: the target is cut to what the search can
    reach. *)
Definition bound_target (a_an b_an : list Q) (sr : Z) (max_search : Q)
  : list Q * list Q :=
  let pad := search_pad a_an b_an sr max_search in
  let needed_b_len := (Py.len a_an + 2 * pad)%Z in
  let b_an :=
    if (Py.len b_an >? needed_b_len)%Z then Py.slice_to b_an needed_b_len
    else b_an in
  (a_an, b_an).

Section Window.

Variable np_log10 : Q -> Q.
Variable np_sqrt : Q -> Q.
Variable mfcc_mean : list Q -> Z -> list Q.

(** The analysis copies of the two raw signals. *)
Definition analysis_window (a_raw b_raw : list Q) (sr : Z)
    (params : AlignmentParameters) : list Q * list Q :=
  let a_an := a_raw in
  let b_an := b_raw in
  let a_an :=
    if Py.ltb 0 (ref_start_sec params) then
      Py.slice_from a_an (Py.int (ref_start_sec params * inject_Z sr))
    else a_an in
  let b_an :=
    if Py.ltb 0 (search_start_sec params) then
      Py.slice_from b_an (Py.int (search_start_sec params * inject_Z sr))
    else b_an in
  let a_an := Gate.apply_gate_db np_log10 a_an (threshold_db params) in
  let b_an := Gate.apply_gate_db np_log10 b_an (threshold_db params) in
  let a_an :=
    if truthy (analysis_sec params) && Py.ltb 0 (analysis_sec params) then
      let max_ref_samples := Py.int (analysis_sec params * inject_Z sr) in
      if (Py.len a_an >? max_ref_samples)%Z then
        Py.slice_to a_an max_ref_samples
      else a_an
    else a_an in
  bound_target a_an b_an sr (max_search params).

(** The offset of the cross-correlation path, moved back to the raw
    timelines. *)
Definition xcorr_offset (a_an b_an : list Q) (sr : Z)
    (params : AlignmentParameters) : result Q :=
  r <- Xcorr.estimate_offset_seconds np_sqrt a_an b_an sr
         (Some (max_search params)) ;;
  let '(offset_sec, _, _) := r in
  Ok (offset_sec + (ref_start_sec params - search_start_sec params)).

(** The offset found by the estimator that [anchor_mode] selects. *)
Definition anchor_offset (a_an b_an : list Q) (sr : Z)
    (params : AlignmentParameters) : result Q :=
  if String.eqb (anchor_mode params) "xcorr" then
    xcorr_offset a_an b_an sr params
  else
    best_b <- Content.find_content_anchor np_sqrt mfcc_mean a_an b_an sr
                (template_sec params) (hop_sec params) (min_sim params) ;;
    match best_b with
    | None => xcorr_offset a_an b_an sr params
    | Some best_b =>
        Ok ((0 + ref_start_sec params) - (best_b + search_start_sec params))
    end.

End Window.
End Window.

(** ** The shift command builder *)

Module Shift.

Open Scope string_scope.

(** The double quote character. *)
Definition dq : string := String (ascii_of_nat 34) EmptyString.

(** The dead zone [1e-6] around a zero offset. *)
Definition dead_zone : Q := 1 # 1000000.

(** Format seconds as ffmpeg-friendly decimal seconds. *)
Definition ffmpeg_time_format (seconds : Q) : string :=
  Py.format_6f (Py.max 0 seconds).

(** The command that cuts [secs] from the head of [target]. *)
Definition trim_cmd (target : string) (sr : Z) (secs out_path : string)
  : string :=
  "ffmpeg -y -i " ++ dq ++ target ++ dq ++ " " ++
  "-ac 1 -ar " ++ Py.str sr ++ " " ++ "-ss " ++ secs ++ " " ++
  "-c:a pcm_s16le -rf64 always " ++ dq ++ out_path ++ dq.

(** The command that puts [pad_ms] milliseconds of silence before
    [target]. *)
Definition pad_cmd (target : string) (sr pad_ms : Z) (out_path : string)
  : string :=
  "ffmpeg -y -i " ++ dq ++ target ++ dq ++ " " ++
  "-ac 1 -ar " ++ Py.str sr ++ " " ++
  "-af " ++ dq ++ "adelay=" ++ Py.str pad_ms ++ "|" ++ Py.str pad_ms ++ dq
  ++ " " ++
  "-c:a pcm_s16le -rf64 always " ++ dq ++ out_path ++ dq.

(** The command that only rewraps [target]. *)
Definition passthrough_cmd (target : string) (sr : Z) (out_path : string)
  : string :=
  "ffmpeg -y -i " ++ dq ++ target ++ dq ++ " -ac 1 -ar " ++ Py.str sr ++ " " ++
  "-c:a pcm_s16le -rf64 always " ++ dq ++ out_path ++ dq.

Definition build_align_command (inhouse_path external_path : string) (sr : Z)
    (mode : string) (offset_sec : Q) (prefer_trim : bool)
    (out_audio : option string) : result string :=
  if negb (String.eqb mode "external_to_inhouse"
           || String.eqb mode "inhouse_to_external") then
    Raise (ValueError "mode must be external_to_inhouse or inhouse_to_external")
  else
    let '(target, ref, effective_offset, default_out) :=
      if String.eqb mode "external_to_inhouse" then
        (external_path, inhouse_path, offset_sec, "external_aligned.wav")
      else
        (inhouse_path, external_path, (- offset_sec)%Q, "inhouse_aligned.wav")
    in
    let out_path := Py.or_default out_audio default_out in
    if Py.ltb effective_offset (- dead_zone)%Q then
      let trim_sec := Qabs effective_offset in
      Ok (trim_cmd target sr (ffmpeg_time_format trim_sec) out_path)
    else if Py.ltb dead_zone effective_offset then
      let pad_ms := Py.round (effective_offset * 1000)%Q in
      Ok (pad_cmd target sr pad_ms out_path)
    else
      Ok (passthrough_cmd target sr out_path).

End Shift.

(** ** Vocabulary of the statements about the shift command *)

(** The three shift instructions. *)
Inductive kind : Type := Trim | Pad | Passthrough.

Definition opposite (k : kind) : kind :=
  match k with
  | Trim => Pad
  | Pad => Trim
  | Passthrough => Passthrough
  end.

Definition external_to_inhouse : string := "external_to_inhouse".
Definition inhouse_to_external : string := "inhouse_to_external".

Definition valid_mode (mode : string) : Prop :=
  mode = external_to_inhouse \/ mode = inhouse_to_external.

(** The file that the command moves. *)
Definition moving_file (mode inhouse_path external_path : string) : string :=
  if String.eqb mode external_to_inhouse then external_path else inhouse_path.

(** The output path when the caller gives none. *)
Definition default_out (mode : string) : string :=
  if String.eqb mode external_to_inhouse then "external_aligned.wav"%string
  else "inhouse_aligned.wav"%string.

(** The offset that the trim/pad decision reads. *)
Definition effective_offset (mode : string) (offset_sec : Q) : Q :=
  if String.eqb mode external_to_inhouse then offset_sec else - offset_sec.

(** [cmd] is an instruction of kind [k] on [target], written to
    [out_path]. *)
Definition emits (target : string) (sr : Z) (out_path : string) (k : kind)
    (cmd : string) : Prop :=
  match k with
  | Trim => exists secs, cmd = Shift.trim_cmd target sr secs out_path
  | Pad => exists pad_ms, cmd = Shift.pad_cmd target sr pad_ms out_path
  | Passthrough => cmd = Shift.passthrough_cmd target sr out_path
  end.

(** The instruction that an effective offset calls for. *)
Definition decide_kind (eff : Q) : kind :=
  if Py.ltb eff (- Shift.dead_zone) then Trim
  else if Py.ltb Shift.dead_zone eff then Pad
  else Passthrough.

(** ** Vocabulary of the statements about the cross-correlation *)

(** A signal minus its own mean. *)
Definition centered (a : list Q) : list Q := map (fun x => x - Np.mean a) a.

(** The lags that the estimator keeps: those of the full correlation of [a]
    with [b] that lie within [max_lag] of zero. *)
Definition in_window (a b : list Q) (max_lag lag : Z) : Prop :=
  (- (Py.len b - 1) <= lag <= Py.len a - 1)%Z
  /\ (- max_lag <= lag <= max_lag)%Z.

(** The same lags as an ascending list. *)
Definition kept_lags (a b : list Q) (max_lag : Z) : list Z :=
  filter (fun l => ((- max_lag <=? l) && (l <=? max_lag))%Z)
    (Py.arange (- Py.len b + 1) (Py.len a)).

(** The normalized score of a lag. *)
Definition xcorr_score (np_sqrt : Q -> Q) (a b : list Q) (lag : Z) : Q :=
  Np.xcorr_at (centered a) (centered b) lag
  / Xcorr.norm_denom np_sqrt (centered a) (centered b).

(** ** The content estimator as the specification words it *)



(** ** The estimator and the command builder over the rounding routines *)

(** [Xcorr] and [Shift] above compute on exact rationals. The module below
    embeds the same two functions with every routine of NumPy, SciPy and
    Python that rounds its result as a field of [numerics], applied to the
    exact values of its arguments: what is proved for all [numerics] holds
    whatever the routines round to, as long as their results are finite.
    Comparisons, the unary minus, [abs], [int], [round] and the formatting
    of a float are exact. *)

Module Rounded.

Record numerics : Type := {
  (* [np.mean(x)] *)
  np_mean : list Q -> Q;
  (* [np.sum(x)] *)
  np_sum : list Q -> Q;
  (* [np.sqrt(x)] *)
  np_sqrt : Q -> Q;
  (* [spsig.correlate(x, y)] with mode full and method fft *)
  correlate : list Q -> list Q -> list Q;
  (* [x.astype(np.float32)], on one element *)
  astype_float32 : Q -> Q;
  (* [x - y], [x * y], [x + y] and [x / y] on the elements of the arrays
     and on their sums *)
  sub : Q -> Q -> Q;
  mul : Q -> Q -> Q;
  add : Q -> Q -> Q;
  div : Q -> Q -> Q;
  (* [x * y] and [x / y] on Python floats *)
  fmul : Q -> Q -> Q;
  fdiv : Q -> Q -> Q
}.

Section Routines.

Variable N : numerics.

(** The bound of the search window, in samples. *)
Definition max_lag_samples (a0 b0 : list Q) (sr : Z) (max_search : option Q)
  : Z :=
  match max_search with
  | Some m =>
      if Py.ltb 0 m then Py.int (fmul N m (inject_Z sr))
      else (Z.min (Py.len a0) (Py.len b0) - 1)%Z
  | None => (Z.min (Py.len a0) (Py.len b0) - 1)%Z
  end.

(** The divisor of the normalisation. *)
Definition norm_denom (a0 b0 : list Q) : Q :=
  add N
    (np_sqrt N
       (mul N (np_sum N (Np.zip_with (mul N) a0 a0))
          (np_sum N (Np.zip_with (mul N) b0 b0))))
    eps.

(** Returns [(offset_sec, lags_sec, norm_corr)]. The mask [keep] has the
    length of [lags_full]; where [corr_full] had another length the source
    would raise, which no theorem below relies on. *)
Definition estimate_offset_seconds (a b : list Q) (sr : Z)
    (max_search : option Q) : result (Q * list Q * list Q) :=
  if ((Py.len a =? 0) || (Py.len b =? 0))%Z then Ok (0, [0], [1])
  else
    let a0 := map (fun x => astype_float32 N (sub N x (np_mean N a))) a in
    let b0 := map (fun x => astype_float32 N (sub N x (np_mean N b))) b in
    let corr_full := correlate N a0 b0 in
    let lags_full := Py.arange (- Py.len b0 + 1) (Py.len a0) in
    let max_lag := max_lag_samples a0 b0 sr max_search in
    let keep :=
      map (fun l => ((- max_lag <=? l) && (l <=? max_lag))%Z) lags_full in
    let corr := Np.select keep corr_full in
    let lags := Np.select keep lags_full in
    let denom := norm_denom a0 b0 in
    let corr_norm := map (fun c => astype_float32 N (div N c denom)) corr in
    best_idx <- Np.argmax corr_norm ;;
    best_lag <- Np.item lags best_idx ;;
    if (sr =? 0)%Z then Raise ZeroDivisionError
    else
      let offset_sec := fdiv N (inject_Z (- best_lag)) (inject_Z sr) in
      Ok (offset_sec,
          map (fun l => astype_float32 N (fdiv N (inject_Z l) (inject_Z sr)))
            lags,
          corr_norm).

Definition build_align_command (inhouse_path external_path : string) (sr : Z)
    (mode : string) (offset_sec : Q) (prefer_trim : bool)
    (out_audio : option string) : result string :=
  if negb (String.eqb mode "external_to_inhouse"
           || String.eqb mode "inhouse_to_external") then
    Raise (ValueError "mode must be external_to_inhouse or inhouse_to_external")
  else
    let '(target, ref, effective_offset, default_out) :=
      if String.eqb mode "external_to_inhouse" then
        (external_path, inhouse_path, offset_sec,
         "external_aligned.wav"%string)
      else
        (inhouse_path, external_path, - offset_sec,
         "inhouse_aligned.wav"%string)
    in
    let out_path := Py.or_default out_audio default_out in
    if Py.ltb effective_offset (- Shift.dead_zone) then
      let trim_sec := Qabs effective_offset in
      Ok (Shift.trim_cmd target sr (Shift.ffmpeg_time_format trim_sec)
            out_path)
    else if Py.ltb Shift.dead_zone effective_offset then
      let pad_ms := Py.round (fmul N effective_offset 1000) in
      Ok (Shift.pad_cmd target sr pad_ms out_path)
    else
      Ok (Shift.passthrough_cmd target sr out_path).

End Routines.

End Rounded.

(** ** The cross-correlation estimate as the specification words it *)

Section XcorrWords.

Variable N : Rounded.numerics.

(** Step 2: the array minus its own mean. *)
Definition zero_mean (x : list Q) : list Q :=
  map (fun v =>
         Rounded.astype_float32 N (Rounded.sub N v (Rounded.np_mean N x))) x.

(** Steps 3 and 4: the sample of the full correlation of the two zero-mean
    arrays that is labelled [lag], where the first sample has the label
    [-(len(b) - 1)] and every next one a label one higher. *)
Definition correlation_at (a b : list Q) (lag : Z) : Q :=
  nth (Z.to_nat (lag + (Py.len b - 1)))
    (Rounded.correlate N (zero_mean a) (zero_mean b)) 0.

(** Step 6: the sum of the squares, the divisor and the normalized score of
    a lag. *)
Definition energy (x : list Q) : Q :=
  Rounded.np_sum N (map (fun v => Rounded.mul N v v) x).

Definition normalizer (a b : list Q) : Q :=
  Rounded.add N
    (Rounded.np_sqrt N
       (Rounded.mul N (energy (zero_mean a)) (energy (zero_mean b))))
    (1 # 1000000000000).

Definition normalized_score (a b : list Q) (lag : Z) : Q :=
  Rounded.astype_float32 N
    (Rounded.div N (correlation_at a b lag) (normalizer a b)).

End XcorrWords.

(** ** The shift instructions as the specification lists them *)

Inductive instruction : Type :=
| TrimHead (seconds : string)
| PadHead (milliseconds : Z)
| Reformat.

Definition instruction_kind (i : instruction) : kind :=
  match i with
  | TrimHead _ => Trim
  | PadHead _ => Pad
  | Reformat => Passthrough
  end.

(** The double quote, character 34. *)
Definition quote : string :=
  String (Ascii false true false false false true false false) EmptyString.

(** The FFmpeg options that carry out an instruction: a seek to the trim
    point, or an [adelay] filter of the pad on both channels. *)
Definition instruction_options (i : instruction) : string :=
  match i with
  | TrimHead seconds => "-ss " ++ seconds ++ " "
  | PadHead milliseconds =>
      "-af " ++ quote ++ "adelay=" ++ Py.str milliseconds ++ "|"
      ++ Py.str milliseconds ++ quote ++ " "
  | Reformat => EmptyString
  end%string.

(** The command line: the moving file in, mono at the sample rate, the
    instruction, 16-bit PCM out. *)
Definition ffmpeg_command (target : string) (sr : Z) (i : instruction)
    (out_path : string) : string :=
  ("ffmpeg -y -i " ++ quote ++ target ++ quote ++ " -ac 1 -ar " ++ Py.str sr
   ++ " " ++ instruction_options i ++ "-c:a pcm_s16le -rf64 always " ++ quote
   ++ out_path ++ quote)%string.

(** ** Parameters of the worked examples *)

(** A square root on the rationals: exact on the squares of integers,
    rounded down to a multiple of the denominator otherwise. *)
Definition sqrt_floor (x : Q) : Q :=
  Z.sqrt (Qnum x * Zpos (Qden x)) # Qden x.

(** A feature extraction for small examples: the first two samples of the
    segment, zero where the segment ends. *)
Definition head_features (seg : list Q) (sr : Z) : list Q :=
  [nth 0 seg 0; nth 1 seg 0].

(** The routines without rounding, for a given square root: with them
    [Rounded] is [Xcorr] and [Shift]. *)
Definition exact (sqrt : Q -> Q) : Rounded.numerics :=
  {| Rounded.np_mean := Np.mean;
     Rounded.np_sum := Np.sum;
     Rounded.np_sqrt := sqrt;
     Rounded.correlate := Np.correlate_full;
     Rounded.astype_float32 := fun x => x;
     Rounded.sub := Qminus;
     Rounded.mul := Qmult;
     Rounded.add := Qplus;
     Rounded.div := Qdiv;
     Rounded.fmul := Qmult;
     Rounded.fdiv := Qdiv |}.

(** ** The points of the similarity plot *)

Module Plot.




End Plot.

(** ** From the raw signals to the offset *)

Module Pipeline.
Section Pipeline.

Variable np_log10 : Q -> Q.
Variable np_sqrt : Q -> Q.
Variable mfcc_mean : list Q -> Z -> list Q.

(** The offset that [main] and [run_alignment_job] compute from the two
    loaded signals. *)
Definition analysis_offset (a_raw b_raw : list Q) (sr : Z)
    (params : Window.AlignmentParameters) : result Q :=
  let '(a_an, b_an) :=
    Window.analysis_window np_log10 a_raw b_raw sr params in
  Window.anchor_offset np_sqrt mfcc_mean a_an b_an sr params.

End Pipeline.
End Pipeline.

(** ** The retention script [purge_jobs.py] *)

Module Purge.

Open Scope Z_scope.

(** The exceptions that the script does not catch. *)
Inductive purge_exn : Type :=
| TypeError
| OSError.

Inductive outcome (A : Type) : Type :=
| Done (v : A)
| Failed (e : purge_exn).

Arguments Done {A} v.
Arguments Failed {A} e.

(** A [datetime]: an instant in microseconds, and whether the value carries
    a time zone. *)
Record datetime : Type := {
  aware : bool;
  instant : Z
}.

(** [timedelta(days=n)] in microseconds. *)
Definition days (n : Z) : Z := n * 86400000000.

(** [x + timedelta(days=n)] *)
Definition plus_days (x : datetime) (n : Z) : datetime :=
  {| aware := aware x; instant := instant x + days n |}.

(** [x < cutoff] for a cutoff derived from [datetime.now(timezone.utc)]:
    comparing a naive value with it raises. *)
Definition before (x : datetime) (cutoff : Z) : outcome bool :=
  if aware x then Done (instant x <? cutoff) else Failed TypeError.

(** What the loop of [main] reads from a job file: the two parsed time
    stamps ([None] for a missing, empty or unparsable one) and the two flags
    with their defaults applied. *)
Record job : Type := {
  created_at : option datetime;
  expires_at : option datetime;
  has_raw_audio : bool;
  pinned : bool
}.

(** What the loop does with a job. *)
Inductive action : Type :=
| Skip
| PurgeJob
| PurgeRaw
| Keep.

(** The raw-audio part of the decision. *)
Definition raw_audio_action (raw_audio_only_days now : Z) (j : job)
  : outcome action :=
  if has_raw_audio j then
    let raw_cutoff := now - days raw_audio_only_days in
    let raw_deadline :=
      match expires_at j with
      | Some e => Some e
      | None =>
          match created_at j with
          | Some c => Some (plus_days c raw_audio_only_days)
          | None => None
          end
      end in
    match raw_deadline with
    | Some deadline =>
        match before deadline raw_cutoff with
        | Done true => Done PurgeRaw
        | Done false => Done Keep
        | Failed e => Failed e
        end
    | None => Done Keep
    end
  else Done Keep.

(** The decision of the loop body for one job. *)
Definition retention_action (job_retention_days raw_audio_only_days now : Z)
    (j : job) : outcome action :=
  let job_cutoff := now - days job_retention_days in
  if pinned j then Done Skip
  else
    match created_at j with
    | Some c =>
        match before c job_cutoff with
        | Done true => Done PurgeJob
        | Done false => raw_audio_action raw_audio_only_days now j
        | Failed e => Failed e
        end
    | None => raw_audio_action raw_audio_only_days now j
    end.

(** A file, or a directory with its entries. *)
#[warnings="-register-all"]
Inductive node : Type :=
| File (name : string)
| Dir (name : string) (entries : list node).

(** [for p in d.rglob("*"): if p.is_file(): p.unlink()]: every file below
    the directory goes, every directory below it stays. *)
Fixpoint unlink_files (n : node) : node :=
  match n with
  | File name => File name
  | Dir name entries =>
      Dir name
        ((fix go (es : list node) : list node :=
            match es with
            | [] => []
            | File _ :: rest => go rest
            | (Dir _ _ as d) :: rest => unlink_files d :: go rest
            end) entries)
  end.

(** The state of a path: nothing there, or a node. *)
Definition path_state : Type := option node.

Definition is_dir (p : path_state) : bool :=
  match p with
  | Some (Dir _ _) => true
  | _ => false
  end.

(** The files are unlinked, then [rmdir] removes the directory, or raises
    when something is left in it. Returns the new state of the path. *)
Definition remove_tree (p : path_state) : path_state * outcome unit :=
  match p with
  | Some (Dir name entries) =>
      match unlink_files (Dir name entries) with
      | Dir _ [] => (None, Done tt)
      | emptied => (Some emptied, Failed OSError)
      end
  | other => (other, Done tt)
  end.

(** The three artefacts of a job: [jobs/<id>.json], [uploads/<id>] and
    [results/<id>]. *)
Record artefacts : Type := {
  job_json : bool;
  uploads : path_state;
  results : path_state
}.

(** Returns the artefacts afterwards and
    [(jobs_deleted, uploads_deleted, results_deleted)]. *)
Definition purge_job (fs : artefacts) (dry_run : bool)
  : artefacts * outcome (Z * Z * Z) :=
  if dry_run then (fs, Done (0, 0, 0))
  else
    let jobs_deleted := if job_json fs then 1 else 0 in
    let fs := {| job_json := false; uploads := uploads fs;
                 results := results fs |} in
    if is_dir (uploads fs) then
      match remove_tree (uploads fs) with
      | (up, Failed e) =>
          ({| job_json := job_json fs; uploads := up;
              results := results fs |}, Failed e)
      | (up, Done _) =>
          let fs := {| job_json := job_json fs; uploads := up;
                       results := results fs |} in
          if is_dir (results fs) then
            match remove_tree (results fs) with
            | (res, Failed e) =>
                ({| job_json := job_json fs; uploads := uploads fs;
                    results := res |}, Failed e)
            | (res, Done _) =>
                ({| job_json := job_json fs; uploads := uploads fs;
                    results := res |}, Done (jobs_deleted, 1, 1))
            end
          else (fs, Done (jobs_deleted, 1, 0))
      end
    else if is_dir (results fs) then
      match remove_tree (results fs) with
      | (res, Failed e) =>
          ({| job_json := job_json fs; uploads := uploads fs;
              results := res |}, Failed e)
      | (res, Done _) =>
          ({| job_json := job_json fs; uploads := uploads fs;
              results := res |}, Done (jobs_deleted, 0, 1))
      end
    else (fs, Done (jobs_deleted, 0, 0)).

(** Returns the artefacts afterwards and 1 if uploads were removed, else
    0. *)
Definition purge_raw_audio (fs : artefacts) (dry_run : bool)
  : artefacts * outcome Z :=
  if negb (is_dir (uploads fs)) then (fs, Done 0)
  else if dry_run then (fs, Done 1)
  else
    match remove_tree (uploads fs) with
    | (up, Failed e) =>
        ({| job_json := job_json fs; uploads := up; results := results fs |},
         Failed e)
    | (up, Done _) =>
        ({| job_json := job_json fs; uploads := up; results := results fs |},
         Done 1)
    end.

(** The store: the artefacts of every job id. *)
Definition store : Type := string -> artefacts.

Definition update (fs : store) (job_id : string) (a : artefacts) : store :=
  fun k => if String.eqb k job_id then a else fs k.

(** The four totals that [main] prints. *)
Record totals : Type := {
  jobs_deleted : Z;
  uploads_deleted : Z;
  results_deleted : Z;
  raw_only_deleted : Z
}.

(** The loop of [main] over the job files that load: [jobs] pairs the stem
    of each file with its content. An exception ends the run where it
    happens. *)
Fixpoint purge_loop (job_retention_days raw_audio_only_days now : Z)
    (dry_run : bool) (jobs : list (string * job)) (fs : store) (t : totals)
  : store * outcome totals :=
  match jobs with
  | [] => (fs, Done t)
  | (job_id, j) :: rest =>
      match retention_action job_retention_days raw_audio_only_days now j
      with
      | Failed e => (fs, Failed e)
      | Done PurgeJob =>
          match purge_job (fs job_id) dry_run with
          | (a, Failed e) => (update fs job_id a, Failed e)
          | (a, Done (dj, du, dr)) =>
              purge_loop job_retention_days raw_audio_only_days now dry_run
                rest (update fs job_id a)
                {| jobs_deleted := jobs_deleted t + dj;
                   uploads_deleted := uploads_deleted t + du;
                   results_deleted := results_deleted t + dr;
                   raw_only_deleted := raw_only_deleted t |}
          end
      | Done PurgeRaw =>
          match purge_raw_audio (fs job_id) dry_run with
          | (a, Failed e) => (update fs job_id a, Failed e)
          | (a, Done removed) =>
              purge_loop job_retention_days raw_audio_only_days now dry_run
                rest (update fs job_id a)
                {| jobs_deleted := jobs_deleted t;
                   uploads_deleted := uploads_deleted t;
                   results_deleted := results_deleted t;
                   raw_only_deleted :=
                     if removed =? 0 then raw_only_deleted t
                     else raw_only_deleted t + 1 |}
          end
      | Done _ =>
          purge_loop job_retention_days raw_audio_only_days now dry_run rest
            fs t
      end
  end.

(** The upload directory that [run_alignment_job] fills for a job: the two
    inputs, each in a directory of its own. *)
Definition service_uploads (job_id inhouse_name external_name : string)
  : node :=
  Dir job_id
    [Dir "inhouse" [File inhouse_name]; Dir "external" [File external_name]].

End Purge.

(** ** Vocabulary of the statements about the retention script *)

Definition is_subdir (n : Purge.node) : bool :=
  match n with
  | Purge.File _ => false
  | Purge.Dir _ _ => true
  end.

(** The artefacts with another state of the upload directory. *)
Definition with_uploads (fs : Purge.artefacts) (up : Purge.path_state)
  : Purge.artefacts :=
  {| Purge.job_json := Purge.job_json fs;
     Purge.uploads := up;
     Purge.results := Purge.results fs |}.

(** * Properties *)

(** ** Comparisons and rounding *)

Lemma ltb_lt (x y : Q) : Py.ltb x y = true <-> x < y.
Proof.
  unfold Py.ltb. rewrite negb_true_iff.
  split; intro H.
  - apply Qnot_le_lt. intro Hle. apply Qle_bool_iff in Hle. congruence.
  - destruct (Qle_bool y x) eqn:E; [|reflexivity].
    apply Qle_bool_iff in E. exfalso. apply (Qlt_not_le _ _ H E).
Qed.

Lemma ltb_ge (x y : Q) : Py.ltb x y = false <-> y <= x.
Proof.
  unfold Py.ltb. rewrite negb_false_iff. apply Qle_bool_iff.
Qed.

Lemma geb_le (x y : Q) : Py.geb x y = true <-> y <= x.
Proof. unfold Py.geb. apply Qle_bool_iff. Qed.

Lemma round_error (x : Q) : Qabs (inject_Z (Py.round x) - x) <= 1 # 2.
Proof.
  assert (Hlo := Qfloor_le x).
  assert (Hhi := Qlt_floor x).
  rewrite inject_Z_plus in Hhi. change (inject_Z 1) with 1 in Hhi.
  apply Qabs_Qle_condition.
  unfold Py.round.
  destruct (Py.ltb (x - inject_Z (Qfloor x)) (1 # 2)) eqn:E1.
  - apply ltb_lt in E1. split; lra.
  - apply ltb_ge in E1.
    assert (Hup : - (1 # 2) <= inject_Z (Qfloor x + 1) - x
                  /\ inject_Z (Qfloor x + 1) - x <= 1 # 2)
      by (rewrite inject_Z_plus; change (inject_Z 1) with 1; split; lra).
    destruct (Py.ltb (1 # 2) (x - inject_Z (Qfloor x))) eqn:E2; [exact Hup|].
    apply ltb_ge in E2.
    destruct (Z.even (Qfloor x)); [split; lra | exact Hup].
Qed.

Lemma round_nonneg (x : Q) : 0 <= x -> (0 <= Py.round x)%Z.
Proof.
  intro Hx.
  assert (Hf : (0 <= Qfloor x)%Z).
  { change 0%Z with (Qfloor 0). apply Qfloor_resp_le. exact Hx. }
  unfold Py.round.
  repeat match goal with |- context [if ?c then _ else _] => destruct c end;
    lia.
Qed.

Lemma max_zero_nonneg (x : Q) :
  0 <= x -> Py.max 0 x = x \/ (x == 0 /\ Py.max 0 x = 0).
Proof.
  intro Hx. unfold Py.max.
  destruct (Py.ltb 0 x) eqn:E; [left; reflexivity|].
  right. apply ltb_ge in E. split; [lra | reflexivity].
Qed.

(** ** Strings *)

Lemma append_cancel_l (s t1 t2 : string) :
  (s ++ t1)%string = (s ++ t2)%string -> t1 = t2.
Proof.
  induction s as [|c s IH]; simpl; intro H; [exact H|].
  injection H as H. exact (IH H).
Qed.

Ltac cancel_prefix H :=
  repeat (first [ apply append_cancel_l in H
                | progress (simpl in H; injection H as H) ]).

Lemma emits_functional (target : string) (sr : Z) (out_path : string)
    (k1 k2 : kind) (cmd : string) :
  emits target sr out_path k1 cmd -> emits target sr out_path k2 cmd ->
  k1 = k2.
Proof.
  destruct k1, k2; simpl; intros H1 H2; try reflexivity; exfalso;
    repeat match goal with
           | H : exists _, _ |- _ => destruct H as [? H]
           end;
    rewrite H1 in H2;
    unfold Shift.trim_cmd, Shift.pad_cmd, Shift.passthrough_cmd in H2;
    cancel_prefix H2; discriminate H2.
Qed.

(** ** The shift command builder *)

Lemma valid_mode_cases (mode : string) :
  valid_mode mode ->
  (String.eqb mode external_to_inhouse = true
   /\ String.eqb mode "external_to_inhouse" = true)
  \/ (String.eqb mode external_to_inhouse = false
      /\ String.eqb mode "external_to_inhouse" = false
      /\ String.eqb mode "inhouse_to_external" = true).
Proof.
  intros [-> | ->]; [left | right]; repeat split; reflexivity.
Qed.

(** The command as a function of the effective offset alone. *)
Lemma build_align_command_valid (inhouse external : string) (sr : Z)
    (mode : string) (offset : Q) (prefer_trim : bool)
    (out_audio : option string) :
  valid_mode mode ->
  let eff := effective_offset mode offset in
  let target := moving_file mode inhouse external in
  let out_path := Py.or_default out_audio (default_out mode) in
  Shift.build_align_command inhouse external sr mode offset prefer_trim
    out_audio
  = if Py.ltb eff (- Shift.dead_zone) then
      Ok (Shift.trim_cmd target sr
            (Shift.ffmpeg_time_format (Qabs eff)) out_path)
    else if Py.ltb Shift.dead_zone eff then
      Ok (Shift.pad_cmd target sr (Py.round (eff * 1000)) out_path)
    else Ok (Shift.passthrough_cmd target sr out_path).
Proof.
  intros Hm. unfold Shift.build_align_command, effective_offset, moving_file,
    default_out.
  destruct (valid_mode_cases Hm) as [[E1 E2] | [E1 [E2 E3]]];
    rewrite E1, E2; [|rewrite E3]; reflexivity.
Qed.

(** *** The builder over the rounding routines *)

Lemma string_append_assoc (s t u : string) :
  ((s ++ t) ++ u)%string = (s ++ t ++ u)%string.
Proof.
  induction s as [|c s IH]; [reflexivity|].
  cbn [append]. rewrite IH. reflexivity.
Qed.

(** The three command lines of the builder are the command line of the
    specification with the options of a trim, of a pad and of none. *)
Lemma trim_cmd_options (target : string) (sr : Z) (secs out_path : string) :
  Shift.trim_cmd target sr secs out_path
  = ffmpeg_command target sr (TrimHead secs) out_path.
Proof.
  unfold Shift.trim_cmd, ffmpeg_command, instruction_options.
  rewrite !string_append_assoc. reflexivity.
Qed.

Lemma pad_cmd_options (target : string) (sr pad_ms : Z) (out_path : string) :
  Shift.pad_cmd target sr pad_ms out_path
  = ffmpeg_command target sr (PadHead pad_ms) out_path.
Proof.
  unfold Shift.pad_cmd, ffmpeg_command, instruction_options.
  rewrite !string_append_assoc. reflexivity.
Qed.

Lemma passthrough_cmd_options (target : string) (sr : Z)
    (out_path : string) :
  Shift.passthrough_cmd target sr out_path
  = ffmpeg_command target sr Reformat out_path.
Proof. reflexivity. Qed.

(** A command line carries out one kind of instruction only. *)
Lemma ffmpeg_command_kind (target : string) (sr : Z) (out_path : string)
    (i1 i2 : instruction) :
  ffmpeg_command target sr i1 out_path = ffmpeg_command target sr i2 out_path ->
  instruction_kind i1 = instruction_kind i2.
Proof.
  unfold ffmpeg_command. intro H.
  destruct i1, i2; try reflexivity; exfalso;
    unfold instruction_options in H; cancel_prefix H; discriminate H.
Qed.

(** The command as a function of the effective offset alone. *)
Lemma rounded_build_align_command_valid (N : Rounded.numerics)
    (inhouse external : string) (sr : Z) (mode : string) (offset : Q)
    (prefer_trim : bool) (out_audio : option string) :
  valid_mode mode ->
  let eff := effective_offset mode offset in
  let target := moving_file mode inhouse external in
  let out_path := Py.or_default out_audio (default_out mode) in
  Rounded.build_align_command N inhouse external sr mode offset prefer_trim
    out_audio
  = if Py.ltb eff (- (1 # 1000000)) then
      Ok (ffmpeg_command target sr
            (TrimHead (Py.format_6f (Py.max 0 (Qabs eff)))) out_path)
    else if Py.ltb (1 # 1000000) eff then
      Ok (ffmpeg_command target sr
            (PadHead (Py.round (Rounded.fmul N eff 1000))) out_path)
    else Ok (ffmpeg_command target sr Reformat out_path).
Proof.
  intros Hm. cbv zeta.
  rewrite <- trim_cmd_options, <- pad_cmd_options, <- passthrough_cmd_options.
  unfold Rounded.build_align_command, effective_offset, moving_file,
    default_out.
  destruct (valid_mode_cases Hm) as [[E1 E2] | [E1 [E2 E3]]];
    rewrite E1, E2; [|rewrite E3]; reflexivity.
Qed.

(** C2: for both directions and every offset the builder returns the command
    line of exactly one instruction on the moving file, chosen by the
    effective offset (the offset, negated for [inhouse_to_external]): below
    [-1e-6] a trim at the absolute effective offset written with six decimals
    (at most half a millionth away from it), above [1e-6] a pad of
    [round(effective_offset * 1000)] milliseconds, the product being the one
    of the floats, and in between neither. *)
Theorem build_align_command_decision (N : Rounded.numerics)
    (inhouse external : string) (sr : Z) (mode : string) (offset : Q)
    (prefer_trim : bool) (out_audio : option string) :
  valid_mode mode ->
  let eff := effective_offset mode offset in
  let target := moving_file mode inhouse external in
  let out_path := Py.or_default out_audio (default_out mode) in
  exists i : instruction,
    Rounded.build_align_command N inhouse external sr mode offset prefer_trim
      out_audio = Ok (ffmpeg_command target sr i out_path)
    /\ (forall i' : instruction,
           ffmpeg_command target sr i' out_path
           = ffmpeg_command target sr i out_path ->
           instruction_kind i' = instruction_kind i)
    /\ (eff < - (1 # 1000000) ->
        i = TrimHead (Py.format_6f (Qabs eff))
        /\ exists n : Z,
             Py.format_6f (Qabs eff) = Py.render6 n /\ (0 <= n)%Z
             /\ Qabs (inject_Z n / 1000000 - Qabs eff) <= 1 # 2000000)
    /\ (1 # 1000000 < eff ->
        i = PadHead (Py.round (Rounded.fmul N eff 1000))
        /\ (0 <= Rounded.fmul N eff 1000 ->
            (0 <= Py.round (Rounded.fmul N eff 1000))%Z))
    /\ (- (1 # 1000000) <= eff /\ eff <= 1 # 1000000 -> i = Reformat).
Proof.
  intros Hm eff target out_path.
  rewrite (rounded_build_align_command_valid N inhouse external sr offset
             prefer_trim out_audio Hm).
  fold eff target out_path.
  destruct (Py.ltb eff (- (1 # 1000000))) eqn:E1.
  - apply ltb_lt in E1.
    assert (Habs : 0 < Qabs eff).
    { rewrite Qabs_neg by lra. lra. }
    assert (Hmax : Py.max 0 (Qabs eff) = Qabs eff).
    { unfold Py.max. apply ltb_lt in Habs. rewrite Habs. reflexivity. }
    rewrite Hmax.
    exists (TrimHead (Py.format_6f (Qabs eff))).
    split; [reflexivity|].
    split; [intros i'; apply ffmpeg_command_kind|].
    split; [|split; intro H; exfalso; lra].
    intros _. split; [reflexivity|].
    exists (Py.round (Qabs eff * 1000000)).
    split; [reflexivity|].
    split; [apply round_nonneg; lra|].
    assert (Hr := round_error (Qabs eff * 1000000)).
    apply Qabs_Qle_condition in Hr. apply Qabs_Qle_condition.
    set (r := inject_Z (Py.round (Qabs eff * 1000000))) in *.
    set (m := Qabs eff) in *.
    unfold Qdiv. change (/ 1000000) with (1 # 1000000).
    split; lra.
  - apply ltb_ge in E1.
    destruct (Py.ltb (1 # 1000000) eff) eqn:E2.
    + apply ltb_lt in E2.
      exists (PadHead (Py.round (Rounded.fmul N eff 1000))).
      split; [reflexivity|].
      split; [intros i'; apply ffmpeg_command_kind|].
      split; [intro H; exfalso; lra|].
      split; [|intro H; exfalso; lra].
      intros _. split; [reflexivity|]. apply round_nonneg.
    + apply ltb_ge in E2.
      exists Reformat.
      split; [reflexivity|].
      split; [intros i'; apply ffmpeg_command_kind|].
      split; [intro H; exfalso; lra|].
      split; [intro H; exfalso; lra|].
      intros _. reflexivity.
Qed.

Lemma build_align_command_decision_witness :
  Rounded.build_align_command (exact sqrt_floor) "in.wav" "ex.wav" 48000
    external_to_inhouse (5 # 100) false None
  = Ok (ffmpeg_command "ex.wav" 48000 (PadHead 50) "external_aligned.wav").
Proof.
  destruct (@build_align_command_decision (exact sqrt_floor) "in.wav"
              "ex.wav" 48000 external_to_inhouse (5 # 100) false None
              (or_introl eq_refl))
    as (i & Hrun & _ & _ & Hpad & _).
  destruct (Hpad eq_refl) as [Hi _].
  rewrite Hi in Hrun. exact Hrun.
Defined.

(** With the exact routines the builder is the one of [Shift]. *)
Lemma exact_build_align_command (sqrt : Q -> Q) (inhouse external : string)
    (sr : Z) (mode : string) (offset : Q) (prefer_trim : bool)
    (out_audio : option string) :
  Rounded.build_align_command (exact sqrt) inhouse external sr mode offset
    prefer_trim out_audio
  = Shift.build_align_command inhouse external sr mode offset prefer_trim
      out_audio.
Proof. reflexivity. Qed.

Lemma decide_kind_compat (x y : Q) : x == y -> decide_kind x = decide_kind y.
Proof.
  intro H. unfold decide_kind.
  destruct (Py.ltb x (- Shift.dead_zone)) eqn:X1;
    destruct (Py.ltb y (- Shift.dead_zone)) eqn:Y1;
    destruct (Py.ltb Shift.dead_zone x) eqn:X2;
    destruct (Py.ltb Shift.dead_zone y) eqn:Y2;
    try reflexivity; exfalso;
    repeat match goal with
           | E : Py.ltb _ _ = true |- _ => apply ltb_lt in E
           | E : Py.ltb _ _ = false |- _ => apply ltb_ge in E
           end;
    unfold Shift.dead_zone in *; lra.
Qed.

Lemma decide_kind_opp (x : Q) : decide_kind (- x) = opposite (decide_kind x).
Proof.
  unfold decide_kind.
  destruct (Py.ltb x (- Shift.dead_zone)) eqn:X1;
    destruct (Py.ltb (- x) (- Shift.dead_zone)) eqn:Y1;
    destruct (Py.ltb Shift.dead_zone x) eqn:X2;
    destruct (Py.ltb Shift.dead_zone (- x)) eqn:Y2;
    try reflexivity; exfalso;
    repeat match goal with
           | E : Py.ltb _ _ = true |- _ => apply ltb_lt in E
           | E : Py.ltb _ _ = false |- _ => apply ltb_ge in E
           end;
    unfold Shift.dead_zone in *; lra.
Qed.

Lemma decide_kind_passthrough (x : Q) :
  decide_kind x = Passthrough
  <-> - Shift.dead_zone <= x /\ x <= Shift.dead_zone.
Proof.
  unfold decide_kind.
  destruct (Py.ltb x (- Shift.dead_zone)) eqn:X1;
    destruct (Py.ltb Shift.dead_zone x) eqn:X2;
    repeat match goal with
           | E : Py.ltb _ _ = true |- _ => apply ltb_lt in E
           | E : Py.ltb _ _ = false |- _ => apply ltb_ge in E
           end;
    unfold Shift.dead_zone in *;
    (split; [intro H; try discriminate H; split; lra
            | intros [H1 H2]; try reflexivity; exfalso; lra]).
Qed.

(** Every valid call returns a command of the kind its effective offset
    calls for. *)
Lemma build_align_command_emits (inhouse external : string) (sr : Z)
    (mode : string) (offset : Q) (prefer_trim : bool)
    (out_audio : option string) :
  valid_mode mode ->
  exists cmd,
    Shift.build_align_command inhouse external sr mode offset prefer_trim
      out_audio = Ok cmd
    /\ emits (moving_file mode inhouse external) sr
         (Py.or_default out_audio (default_out mode))
         (decide_kind (effective_offset mode offset)) cmd.
Proof.
  intro Hm.
  rewrite (build_align_command_valid inhouse external sr offset prefer_trim
             out_audio Hm).
  unfold decide_kind.
  destruct (Py.ltb (effective_offset mode offset) (- Shift.dead_zone)).
  - eexists. split; [reflexivity|]. eexists. reflexivity.
  - destruct (Py.ltb Shift.dead_zone (effective_offset mode offset)).
    + eexists. split; [reflexivity|]. eexists. reflexivity.
    + eexists. split; reflexivity.
Qed.

(** C6, as the code has it: with the same offset the two directions choose
    opposite instructions (a trim against a pad, or a passthrough twice when
    the offset is within [1e-6] of zero), because [inhouse_to_external]
    negates the offset first; negating the offset as well as the direction
    therefore gives the same kind again. *)
Theorem direction_flips_kind (inhouse external : string) (sr : Z) (o : Q)
    (prefer_trim : bool) (out_audio : option string) :
  exists cmd_ext cmd_inh cmd_inh_neg k,
    Shift.build_align_command inhouse external sr external_to_inhouse o
      prefer_trim out_audio = Ok cmd_ext
    /\ Shift.build_align_command inhouse external sr inhouse_to_external o
         prefer_trim out_audio = Ok cmd_inh
    /\ Shift.build_align_command inhouse external sr inhouse_to_external (- o)
         prefer_trim out_audio = Ok cmd_inh_neg
    /\ emits external sr (Py.or_default out_audio "external_aligned.wav") k
         cmd_ext
    /\ emits inhouse sr (Py.or_default out_audio "inhouse_aligned.wav")
         (opposite k) cmd_inh
    /\ emits inhouse sr (Py.or_default out_audio "inhouse_aligned.wav") k
         cmd_inh_neg
    /\ (k = Passthrough <-> - Shift.dead_zone <= o /\ o <= Shift.dead_zone).
Proof.
  destruct (@build_align_command_emits inhouse external sr external_to_inhouse
              o prefer_trim out_audio (or_introl eq_refl)) as (c1 & R1 & K1).
  destruct (@build_align_command_emits inhouse external sr inhouse_to_external
              o prefer_trim out_audio (or_intror eq_refl)) as (c2 & R2 & K2).
  destruct (@build_align_command_emits inhouse external sr inhouse_to_external
              (- o) prefer_trim out_audio (or_intror eq_refl))
    as (c3 & R3 & K3).
  change (effective_offset external_to_inhouse o) with o in K1.
  change (effective_offset inhouse_to_external o) with (- o) in K2.
  change (effective_offset inhouse_to_external (- o)) with (- - o) in K3.
  rewrite decide_kind_opp in K2.
  rewrite (@decide_kind_compat (- - o) o) in K3 by ring.
  exists c1, c2, c3, (decide_kind o).
  repeat (split; [assumption|]).
  apply decide_kind_passthrough.
Qed.

(** The claim C6 as the specification words it fails: for the offset 1 under
    [external_to_inhouse] and the offset -1 under [inhouse_to_external] the
    builder pads both times. *)
Lemma negated_offset_keeps_kind_example :
  exists cmd1 cmd2,
    Shift.build_align_command "in.wav" "ex.wav" 48000 external_to_inhouse 1
      false None = Ok cmd1
    /\ Shift.build_align_command "in.wav" "ex.wav" 48000 inhouse_to_external
         (- (1)) false None = Ok cmd2
    /\ emits "ex.wav" 48000 "external_aligned.wav" Pad cmd1
    /\ emits "in.wav" 48000 "inhouse_aligned.wav" Pad cmd2
    /\ ~ emits "in.wav" 48000 "inhouse_aligned.wav" (opposite Pad) cmd2.
Proof.
  eexists. eexists.
  split; [vm_compute; reflexivity|].
  split; [vm_compute; reflexivity|].
  split; [exists 1000%Z; vm_compute; reflexivity|].
  assert (H : emits "in.wav" 48000 "inhouse_aligned.wav" Pad
                (Shift.pad_cmd "in.wav" 48000 1000 "inhouse_aligned.wav"))
    by (exists 1000%Z; reflexivity).
  split; [exact H|].
  intro Ht.
  pose proof (@emits_functional _ _ _ _ _ _ Ht H) as Hk. discriminate Hk.
Qed.

(** C7: the command does not depend on the trim-vs-pad preference flag. *)
Theorem build_align_command_ignores_prefer_trim (inhouse external : string)
    (sr : Z) (mode : string) (offset : Q) (out_audio : option string) :
  Shift.build_align_command inhouse external sr mode offset true out_audio
  = Shift.build_align_command inhouse external sr mode offset false out_audio.
Proof.
  unfold Shift.build_align_command.
  destruct (negb (String.eqb mode "external_to_inhouse"
                  || String.eqb mode "inhouse_to_external"));
    [reflexivity|].
  destruct (String.eqb mode "external_to_inhouse"); reflexivity.
Qed.

(** C8: the builder raises exactly when the direction is neither
    [external_to_inhouse] nor [inhouse_to_external], and then the error is
    the same for every other argument: nothing of the offset, the paths or
    the sample rate enters it. *)
Theorem build_align_command_raises_iff (inhouse external : string) (sr : Z)
    (mode : string) (offset : Q) (prefer_trim : bool)
    (out_audio : option string) :
  ((exists e,
       Shift.build_align_command inhouse external sr mode offset prefer_trim
         out_audio = Raise e)
   <-> ~ valid_mode mode)
  /\ (~ valid_mode mode ->
      forall inhouse' external' sr' offset' prefer_trim' out_audio',
        Shift.build_align_command inhouse' external' sr' mode offset'
          prefer_trim' out_audio'
        = Raise (ValueError
                   "mode must be external_to_inhouse or inhouse_to_external")).
Proof.
  assert (Hinv : ~ valid_mode mode ->
                 String.eqb mode "external_to_inhouse"
                 || String.eqb mode "inhouse_to_external" = false).
  { intro Hn. apply orb_false_iff. split; apply String.eqb_neq; intro E;
      apply Hn; [left | right]; exact E. }
  split; [split|].
  - intros [e He] Hm.
    destruct (@build_align_command_emits inhouse external sr mode offset
                prefer_trim out_audio Hm) as (cmd & Hok & _).
    congruence.
  - intro Hn. eexists. unfold Shift.build_align_command.
    rewrite (Hinv Hn). reflexivity.
  - intros Hn **. unfold Shift.build_align_command.
    rewrite (Hinv Hn). reflexivity.
Qed.

(** ** Arrays *)

Lemma zip_with_map_l {A B C : Type} (f : B -> A -> C) (g : A -> B)
    (l : list A) :
  Np.zip_with f (map g l) l = map (fun x => f (g x) x) l.
Proof.
  induction l as [|x l IH]; simpl; [reflexivity|]. rewrite IH. reflexivity.
Qed.

Lemma select_map_filter {A B : Type} (p : A -> bool) (f : A -> B)
    (l : list A) :
  Np.select (map p l) (map f l) = map f (filter p l).
Proof.
  induction l as [|x l IH]; simpl; [reflexivity|].
  destruct (p x); simpl; rewrite IH; reflexivity.
Qed.

Lemma len_nonneg {A : Type} (l : list A) : (0 <= Py.len l)%Z.
Proof. unfold Py.len. lia. Qed.

Lemma len_zero_iff {A : Type} (l : list A) : (Py.len l =? 0)%Z = true <-> l = [].
Proof.
  unfold Py.len. rewrite Z.eqb_eq. destruct l; simpl; split; intro H;
    try reflexivity; try discriminate; lia.
Qed.

Lemma len_map {A B : Type} (f : A -> B) (l : list A) :
  Py.len (map f l) = Py.len l.
Proof. unfold Py.len. rewrite length_map. reflexivity. Qed.

Lemma int_nonneg (x : Q) : 0 <= x -> (0 <= Py.int x)%Z.
Proof.
  unfold Py.int, Qle. simpl. intro H.
  apply Z.quot_pos; lia.
Qed.

Lemma slice_to_firstn {A : Type} (l : list A) (stop : Z) :
  (0 <= stop)%Z -> Py.slice_to l stop = firstn (Z.to_nat stop) l.
Proof.
  intro H. unfold Py.slice_to, Py.clamp_index.
  destruct (stop <? 0)%Z eqn:E; [apply Z.ltb_lt in E; lia|].
  destruct (Z.le_gt_cases stop (Py.len l)) as [Hle | Hgt].
  - rewrite Z.min_l by exact Hle. reflexivity.
  - rewrite Z.min_r by lia. unfold Py.len in *.
    rewrite Nat2Z.id, firstn_all.
    symmetry. apply firstn_all2. lia.
Qed.

(** ** The amplitude gate *)

Section GateFacts.

Variable np_log10 : Q -> Q.

(** The instantaneous level of a sample, in dB. *)
Let level (s : Q) : Q := 20 * np_log10 (Qabs s + eps).

Lemma apply_gate_db_map (y : list Q) (threshold : Q) :
  Gate.apply_gate_db np_log10 y (Some threshold)
  = map (fun s => if Py.ltb (level s) threshold then 0 else s) y.
Proof.
  unfold Gate.apply_gate_db, Np.where_zero.
  rewrite !map_map.
  apply (zip_with_map_l (fun (c : bool) s => if c then 0 else s)).
Qed.

(** C9: with a threshold the gate keeps the length of the signal, replaces by
    zero exactly the samples whose level [20 * log10(|s| + 1e-12)] is below
    the threshold and leaves every other sample as it is; without a
    threshold it returns the signal itself. *)
Theorem apply_gate_db_spec (y : list Q) :
  Gate.apply_gate_db np_log10 y None = y
  /\ forall threshold : Q,
       let gated := Gate.apply_gate_db np_log10 y (Some threshold) in
       List.length gated = List.length y
       /\ forall (i : nat) (s : Q),
            nth_error y i = Some s ->
            (level s < threshold -> nth_error gated i = Some 0)
            /\ (threshold <= level s -> nth_error gated i = Some s).
Proof.
  split; [reflexivity|].
  intros threshold gated. subst gated.
  rewrite apply_gate_db_map.
  split; [apply length_map|].
  intros i s Hi.
  rewrite nth_error_map, Hi. simpl.
  split; intro H.
  - apply ltb_lt in H. rewrite H. reflexivity.
  - apply ltb_ge in H. rewrite H. reflexivity.
Qed.

End GateFacts.

(** ** The analysis window builder *)

Lemma positive_search_test (m : Q) :
  Window.truthy m && Py.ltb 0 m = true <-> 0 < m.
Proof.
  unfold Window.truthy. rewrite andb_true_iff, negb_true_iff, ltb_lt.
  split; [intros [_ H]; exact H|].
  intro H. split; [|exact H].
  destruct (Qeq_bool m 0) eqn:E; [|reflexivity].
  apply Qeq_bool_iff in E. lra.
Qed.

(** The value of the pad, case by case. *)
Lemma search_pad_cases (a_an b_an : list Q) (sr : Z) (max_search : Q) :
  (0 < max_search ->
   Window.search_pad a_an b_an sr max_search
   = Py.int (max_search * inject_Z sr))
  /\ (max_search <= 0 -> a_an <> [] -> b_an <> [] ->
      Window.search_pad a_an b_an sr max_search
      = (Z.min (Py.len a_an) (Py.len b_an) - 1)%Z)
  /\ (max_search <= 0 -> a_an = [] \/ b_an = [] ->
      Window.search_pad a_an b_an sr max_search = 0%Z).
Proof.
  unfold Window.search_pad.
  destruct (Window.truthy max_search && Py.ltb 0 max_search) eqn:E.
  - apply positive_search_test in E.
    repeat split; intros; try reflexivity; exfalso; lra.
  - assert (Hn : ~ 0 < max_search).
    { intro H. apply positive_search_test in H. congruence. }
    split; [intro H; contradiction|].
    split.
    + intros _ Ha Hb.
      destruct (Py.len a_an =? 0)%Z eqn:Ea;
        [apply len_zero_iff in Ea; contradiction|].
      destruct (Py.len b_an =? 0)%Z eqn:Eb;
        [apply len_zero_iff in Eb; contradiction|].
      reflexivity.
    + intros _ [-> | ->]; simpl; [reflexivity|].
      rewrite andb_false_r. reflexivity.
Qed.

Lemma search_pad_nonneg (a_an b_an : list Q) (sr : Z) (max_search : Q) :
  (0 < sr)%Z -> (0 <= Window.search_pad a_an b_an sr max_search)%Z.
Proof.
  intro Hsr.
  destruct (search_pad_cases a_an b_an sr max_search) as (H1 & H2 & H3).
  destruct (Qlt_le_dec 0 max_search) as [Hp | Hn].
  - rewrite (H1 Hp). apply int_nonneg.
    apply Qmult_le_0_compat; [lra|].
    change 0 with (inject_Z 0). rewrite <- Zle_Qle. lia.
  - destruct a_an as [|x a']; [rewrite H3; [lia|exact Hn|left; reflexivity]|].
    destruct b_an as [|y b']; [rewrite H3; [lia|exact Hn|right; reflexivity]|].
    rewrite H2; [|exact Hn|discriminate|discriminate].
    unfold Py.len. simpl List.length. lia.
Qed.




(** ** The content-template estimator *)

Lemma range_from_zero (stop step : Z) :
  Py.range 0 stop step
  = map (fun k => (Z.of_nat k * step)%Z)
      (seq 0 (Z.to_nat ((stop + step - 1) / step))).
Proof.
  unfold Py.range. rewrite Z.sub_0_r.
  apply map_ext. intro k. lia.
Qed.

(** The windows that the loop visits are the multiples of the hop up to the
    last start. *)
Lemma window_count (last hop : Z) (k : nat) :
  (1 <= hop)%Z -> (0 <= last)%Z ->
  (k < Z.to_nat ((last + 1 + hop - 1) / hop))%nat
  <-> (Z.of_nat k * hop <= last)%Z.
Proof.
  intros Hh Hl.
  replace (last + 1 + hop - 1)%Z with (last + hop)%Z by lia.
  assert (Hq : (0 <= (last + hop) / hop)%Z) by (apply Z.div_pos; lia).
  assert (Hdm := Z.div_mod (last + hop) hop ltac:(lia)).
  assert (Hr := Z.mod_pos_bound (last + hop) hop ltac:(lia)).
  split; intro H.
  - assert (Hk : (Z.of_nat k + 1 <= (last + hop) / hop)%Z) by lia. nia.
  - assert (Hk : (Z.of_nat k < (last + hop) / hop)%Z) by nia. lia.
Qed.

Section ContentFacts.

Variable np_sqrt : Q -> Q.
Variable mfcc_mean : list Q -> Z -> list Q.

Variables (v1 b_an : list Q) (sr tmpl_len : Z) (min_sim : Q).

Let sim (start : Z) : Q :=
  Content.window_sim np_sqrt mfcc_mean v1 b_an sr tmpl_len start.

Let run (starts : list Z) : result (option Q) :=
  Content.scan np_sqrt mfcc_mean v1 b_an sr tmpl_len min_sim starts.

(** The loop over the starts [f i, f (i+1), ..., f (i+n-1)] stops at the
    first one whose window is similar enough. *)
Lemma scan_seq (f : nat -> Z) (n : nat) :
  sr <> 0%Z ->
  forall i : nat,
    (exists k : nat,
        (i <= k < i + n)%nat
        /\ min_sim <= sim (f k)
        /\ (forall j : nat, (i <= j < k)%nat -> sim (f j) < min_sim)
        /\ run (map f (seq i n)) = Ok (Some (inject_Z (f k) / inject_Z sr)))
    \/ ((forall j : nat, (i <= j < i + n)%nat -> sim (f j) < min_sim)
        /\ run (map f (seq i n)) = Ok None).
Proof.
  intro Hsr. apply Z.eqb_neq in Hsr.
  induction n as [|n IH]; intro i.
  - right. split; [intros j Hj; lia | reflexivity].
  - unfold run. simpl. fold (sim (f i)).
    destruct (Py.geb (sim (f i)) min_sim) eqn:E.
    + apply geb_le in E. left. exists i. rewrite Hsr.
      split; [lia|]. split; [exact E|].
      split; [intros j Hj; lia | reflexivity].
    + assert (Hlt : sim (f i) < min_sim).
      { apply Qnot_le_lt. intro Hle. apply geb_le in Hle. congruence. }
      destruct (IH (S i)) as [(k & Hk & Hq & Hpre & Hrun) | (Hall & Hrun)].
      * left. exists k. split; [lia|]. split; [exact Hq|].
        split; [|exact Hrun].
        intros j Hj. destruct (Nat.eq_dec j i) as [-> | Hne];
          [exact Hlt | apply Hpre; lia].
      * right. split; [|exact Hrun].
        intros j Hj. destruct (Nat.eq_dec j i) as [-> | Hne];
          [exact Hlt | apply Hall; lia].
Qed.

(** The loop over [range(0, last_start + 1, hop)]. *)
Lemma scan_range_first (hop last_start : Z) :
  sr <> 0%Z -> (1 <= hop)%Z -> (0 <= last_start)%Z ->
  (exists k : Z,
      (0 <= k)%Z /\ (k * hop <= last_start)%Z
      /\ min_sim <= sim (k * hop)%Z
      /\ (forall j : Z, (0 <= j < k)%Z -> sim (j * hop)%Z < min_sim)
      /\ run (Py.range 0 (last_start + 1) hop)
         = Ok (Some (inject_Z (k * hop) / inject_Z sr)))
  \/ ((forall k : Z,
          (0 <= k)%Z -> (k * hop <= last_start)%Z ->
          sim (k * hop)%Z < min_sim)
      /\ run (Py.range 0 (last_start + 1) hop) = Ok None).
Proof.
  intros Hsr Hh Hl.
  rewrite range_from_zero.
  set (n := Z.to_nat ((last_start + 1 + hop - 1) / hop)).
  destruct (@scan_seq (fun k => (Z.of_nat k * hop)%Z) n Hsr 0%nat)
    as [(k & Hk & Hq & Hpre & Hrun) | (Hall & Hrun)].
  - left. exists (Z.of_nat k).
    split; [lia|].
    split; [apply window_count; [exact Hh | exact Hl | fold n; lia]|].
    split; [exact Hq|].
    split; [|exact Hrun].
    intros j Hj. rewrite <- (Z2Nat.id j) by lia. apply Hpre. lia.
  - right. split; [|exact Hrun].
    intros k Hk Hin. rewrite <- (Z2Nat.id k) by lia. apply Hall.
    rewrite <- (Z2Nat.id k) in Hin by lia.
    apply window_count in Hin; [fold n in Hin; lia | exact Hh | exact Hl].
Qed.

End ContentFacts.




(** ** The cross-correlation offset estimator *)

(** *** Ascending lists of lags *)

Lemma arange_In (lo hi x : Z) : In x (Py.arange lo hi) <-> (lo <= x < hi)%Z.
Proof.
  unfold Py.arange. rewrite in_map_iff. split.
  - intros (k & <- & Hk). apply in_seq in Hk. lia.
  - intro H. exists (Z.to_nat (x - lo)). split; [lia|].
    apply in_seq. lia.
Qed.

Lemma map_seq_sorted (f : nat -> Z) (n : nat) :
  (forall i j : nat, (i < j)%nat -> (f i < f j)%Z) ->
  forall i : nat, StronglySorted Z.lt (map f (seq i n)).
Proof.
  intro Hf. induction n as [|n IH]; intro i; simpl; constructor.
  - apply IH.
  - apply Forall_forall. intros x Hx.
    apply in_map_iff in Hx. destruct Hx as (j & <- & Hj).
    apply in_seq in Hj. apply Hf. lia.
Qed.

Lemma arange_sorted (lo hi : Z) : StronglySorted Z.lt (Py.arange lo hi).
Proof. unfold Py.arange. apply map_seq_sorted. intros i j Hij. lia. Qed.

Lemma filter_sorted (p : Z -> bool) (l : list Z) :
  StronglySorted Z.lt l -> StronglySorted Z.lt (filter p l).
Proof.
  induction 1 as [|x l Hs IH Hx]; simpl; [constructor|].
  destruct (p x); [|exact IH].
  constructor; [exact IH|].
  apply Forall_forall. intros y Hy. apply filter_In in Hy.
  rewrite Forall_forall in Hx. apply Hx. tauto.
Qed.

Lemma sorted_after (pre post : list Z) (x : Z) :
  StronglySorted Z.lt (pre ++ x :: post) -> Forall (Z.lt x) post.
Proof.
  induction pre as [|y pre IH]; simpl; intro H;
    apply StronglySorted_inv in H; destruct H as [Hs Hall];
    [exact Hall | exact (IH Hs)].
Qed.

Lemma kept_lags_sorted (a b : list Q) (max_lag : Z) :
  StronglySorted Z.lt (kept_lags a b max_lag).
Proof. unfold kept_lags. apply filter_sorted, arange_sorted. Qed.

Lemma kept_lags_In (a b : list Q) (max_lag lag : Z) :
  In lag (kept_lags a b max_lag) <-> in_window a b max_lag lag.
Proof.
  unfold kept_lags, in_window.
  rewrite filter_In, arange_In, andb_true_iff, !Z.leb_le. lia.
Qed.

(** *** The first maximum *)

Lemma argmax_from_split (l pre : list Q) :
  forall (p1 p2 : list Q) (best : Q),
    pre = p1 ++ best :: p2 ->
    Forall (fun y => y < best) p1 ->
    Forall (fun y => y <= best) p2 ->
    exists (q1 q2 : list Q) (x : Q),
      pre ++ l = q1 ++ x :: q2
      /\ List.length q1
         = Np.argmax_from best (List.length p1) (List.length pre) l
      /\ Forall (fun y => y < x) q1
      /\ Forall (fun y => y <= x) q2.
Proof.
  revert pre. induction l as [|y l IH]; intros pre p1 p2 best Hpre H1 H2.
  - exists p1, p2, best. rewrite app_nil_r. repeat split; assumption.
  - simpl. destruct (Py.ltb best y) eqn:E.
    + apply ltb_lt in E.
      destruct (IH (pre ++ [y]) pre [] y) as (q1 & q2 & x & Heq & Hlen & Hq)
      ; [reflexivity | | constructor |].
      * subst pre. apply Forall_app. split.
        -- eapply Forall_impl; [|exact H1]. simpl. intros z Hz. lra.
        -- constructor; [exact E|].
           eapply Forall_impl; [|exact H2]. simpl. intros z Hz. lra.
      * exists q1, q2, x. rewrite <- app_assoc in Heq. simpl in Heq.
        rewrite length_app in Hlen. simpl in Hlen.
        rewrite Nat.add_1_r in Hlen. repeat split; tauto.
    + apply ltb_ge in E.
      destruct (IH (pre ++ [y]) p1 (p2 ++ [y]) best)
        as (q1 & q2 & x & Heq & Hlen & Hq).
      * subst pre. rewrite <- app_assoc. reflexivity.
      * exact H1.
      * apply Forall_app. split; [exact H2|]. constructor; [exact E|].
        constructor.
      * exists q1, q2, x. rewrite <- app_assoc in Heq. simpl in Heq.
        rewrite length_app in Hlen. simpl in Hlen.
        rewrite Nat.add_1_r in Hlen. repeat split; tauto.
Qed.

(** [np.argmax] of a non-empty array returns the position of an entry that
    is above everything before it and not below anything after it. *)
Lemma argmax_split (l : list Q) :
  l <> [] ->
  exists (i : nat) (q1 q2 : list Q) (x : Q),
    Np.argmax l = Ok i
    /\ l = q1 ++ x :: q2
    /\ List.length q1 = i
    /\ Forall (fun y => y < x) q1
    /\ Forall (fun y => y <= x) q2.
Proof.
  destruct l as [|x l]; [congruence|]. intros _.
  destruct (@argmax_from_split l [x] [] [] x eq_refl)
    as (q1 & q2 & y & Heq & Hlen & H1 & H2); [constructor | constructor|].
  simpl in Heq, Hlen.
  exists (List.length q1), q1, q2, y.
  split; [simpl; rewrite Hlen; reflexivity|].
  repeat split; assumption.
Qed.

Lemma item_middle {A : Type} (pre post : list A) (x : A) :
  Np.item (pre ++ x :: post) (List.length pre) = Ok x.
Proof.
  unfold Np.item. rewrite nth_error_app2 by lia.
  rewrite Nat.sub_diag. reflexivity.
Qed.

(** *** The estimator *)

Lemma len_centered (a : list Q) : Py.len (centered a) = Py.len a.
Proof. apply len_map. Qed.

Lemma len_pos {A : Type} (l : list A) : l <> [] -> (1 <= Py.len l)%Z.
Proof. destruct l; [congruence|]. intros _. unfold Py.len. simpl. lia. Qed.

(** The full correlation, entry by entry, is the correlation at the lag that
    labels the entry. *)
Lemma correlate_full_lags (a0 b0 : list Q) :
  Np.correlate_full a0 b0
  = map (Np.xcorr_at a0 b0) (Py.arange (- Py.len b0 + 1) (Py.len a0)).
Proof.
  unfold Np.correlate_full, Py.arange. rewrite !map_map.
  replace (Py.len a0 - (- Py.len b0 + 1))%Z
    with (Py.len a0 + Py.len b0 - 1 - 0)%Z by lia.
  apply map_ext. intro k. f_equal. lia.
Qed.

Lemma select_mask_filter {A : Type} (p : A -> bool) (l : list A) :
  Np.select (map p l) l = filter p l.
Proof.
  rewrite <- (map_id l) at 2. rewrite select_map_filter. apply map_id.
Qed.

(** The bound of the search window in terms of the two signals. *)
Lemma max_lag_cases (a b : list Q) (sr : Z) (max_search : option Q) :
  let max_lag :=
    Xcorr.max_lag_samples (centered a) (centered b) sr max_search in
  (forall m : Q,
      max_search = Some m -> 0 < m -> max_lag = Py.int (m * inject_Z sr))
  /\ (max_search = None \/ (exists m : Q, max_search = Some m /\ m <= 0) ->
      max_lag = (Z.min (Py.len a) (Py.len b) - 1)%Z).
Proof.
  unfold Xcorr.max_lag_samples. rewrite !len_centered. split.
  - intros m -> Hm. apply ltb_lt in Hm. rewrite Hm. reflexivity.
  - intros [-> | (m & -> & Hm)]; [reflexivity|].
    apply ltb_ge in Hm. rewrite Hm. reflexivity.
Qed.

Lemma max_lag_nonneg (a b : list Q) (sr : Z) (max_search : option Q) :
  a <> [] -> b <> [] -> (0 < sr)%Z ->
  (0 <= Xcorr.max_lag_samples (centered a) (centered b) sr max_search)%Z.
Proof.
  intros Ha Hb Hsr.
  destruct (max_lag_cases a b sr max_search) as [H1 H2].
  apply len_pos in Ha. apply len_pos in Hb.
  destruct max_search as [m|]; [|rewrite H2; [lia | left; reflexivity]].
  destruct (Qlt_le_dec 0 m) as [Hp | Hn].
  - rewrite (H1 m eq_refl Hp). apply int_nonneg.
    apply Qmult_le_0_compat; [lra|].
    change 0 with (inject_Z 0). rewrite <- Zle_Qle. lia.
  - rewrite H2; [lia|]. right. exists m. split; [reflexivity | exact Hn].
Qed.

(** Lag zero is always within the window. *)
Lemma zero_lag_kept (a b : list Q) (sr : Z) (max_search : option Q) :
  a <> [] -> b <> [] -> (0 < sr)%Z ->
  In 0%Z
    (kept_lags a b
       (Xcorr.max_lag_samples (centered a) (centered b) sr max_search)).
Proof.
  intros Ha Hb Hsr. apply kept_lags_In.
  assert (Hm := max_lag_nonneg max_search Ha Hb Hsr).
  apply len_pos in Ha. apply len_pos in Hb.
  unfold in_window. lia.
Qed.

(** The run of the estimator on two non-empty signals: the kept lags split
    around the returned one, with lower scores before it and no higher
    score after it. *)
Lemma estimate_offset_seconds_run (np_sqrt : Q -> Q) (a b : list Q) (sr : Z)
    (max_search : option Q) :
  a <> [] -> b <> [] -> (0 < sr)%Z ->
  let max_lag :=
    Xcorr.max_lag_samples (centered a) (centered b) sr max_search in
  let lags := kept_lags a b max_lag in
  let score := xcorr_score np_sqrt a b in
  exists (best_lag : Z) (pre post : list Z),
    lags = pre ++ best_lag :: post
    /\ Forall (fun l => score l < score best_lag) pre
    /\ Forall (fun l => score l <= score best_lag) post
    /\ Xcorr.estimate_offset_seconds np_sqrt a b sr max_search
       = Ok (- inject_Z best_lag / inject_Z sr,
             map (fun l => inject_Z l / inject_Z sr) lags,
             map score lags).
Proof.
  intros Ha Hb Hsr max_lag lags score.
  assert (Hne : map score lags <> []).
  { intro H. apply map_eq_nil in H.
    pose proof (zero_lag_kept max_search Ha Hb Hsr) as H0.
    fold max_lag in H0. fold lags in H0. rewrite H in H0. exact H0. }
  destruct (argmax_split Hne) as (i & q1 & q2 & x & Harg & Heq & Hi & H1 & H2).
  apply map_eq_app in Heq. destruct Heq as (pre & rest & Hl & Hq1 & Hrest).
  apply map_eq_cons in Hrest.
  destruct Hrest as (best_lag & post & Hrest & Hx & Hq2).
  subst rest q1 q2 x.
  exists best_lag, pre, post.
  split; [exact Hl|].
  split; [rewrite Forall_map in H1; exact H1|].
  split; [rewrite Forall_map in H2; exact H2|].
  unfold Xcorr.estimate_offset_seconds.
  assert (Ea : (Py.len a =? 0)%Z = false).
  { apply Z.eqb_neq. apply len_pos in Ha. lia. }
  assert (Eb : (Py.len b =? 0)%Z = false).
  { apply Z.eqb_neq. apply len_pos in Hb. lia. }
  rewrite Ea, Eb. cbn [orb].
  fold (centered a). fold (centered b). cbv zeta.
  rewrite correlate_full_lags, !len_centered.
  fold max_lag.
  rewrite select_map_filter, !select_mask_filter.
  fold (kept_lags a b max_lag). fold lags.
  rewrite map_map.
  change (map (fun l => Np.xcorr_at (centered a) (centered b) l
                        / Xcorr.norm_denom np_sqrt (centered a) (centered b))
              lags)
    with (map score lags).
  rewrite Harg. cbn [bind].
  rewrite Hl at 1. rewrite length_map in Hi. rewrite <- Hi.
  rewrite item_middle. cbn [bind].
  assert (Es : (sr =? 0)%Z = false) by (apply Z.eqb_neq; lia).
  rewrite Es. reflexivity.
Qed.

(** *** The estimator over the rounding routines *)

Lemma zip_with_self {A B : Type} (f : A -> A -> B) (l : list A) :
  Np.zip_with f l l = map (fun x => f x x) l.
Proof.
  induction l as [|x l IH]; [reflexivity|].
  cbn [Np.zip_with map]. rewrite IH. reflexivity.
Qed.

(** An array is the list of its entries by position. *)
Lemma nth_seq_map (l : list Q) :
  map (fun k => nth k l 0) (seq 0 (List.length l)) = l.
Proof.
  apply nth_ext with (d := 0) (d' := 0).
  - rewrite length_map, length_seq. reflexivity.
  - intros n Hn. rewrite length_map, length_seq in Hn.
    rewrite nth_indep with (d' := nth (List.length l) l 0)
      by (rewrite length_map, length_seq; exact Hn).
    rewrite (map_nth (fun k => nth k l 0)), seq_nth by exact Hn.
    reflexivity.
Qed.

Section RoundedXcorr.

Variable N : Rounded.numerics.

Lemma len_zero_mean (x : list Q) : Py.len (zero_mean N x) = Py.len x.
Proof. apply len_map. Qed.

(** The full correlation, entry by entry, is the sample that the
    specification labels with the lag of the entry. *)
Lemma correlate_lags (a b : list Q) :
  a <> [] -> b <> [] ->
  List.length (Rounded.correlate N (zero_mean N a) (zero_mean N b))
  = (List.length a + List.length b - 1)%nat ->
  Rounded.correlate N (zero_mean N a) (zero_mean N b)
  = map (correlation_at N a b) (Py.arange (- Py.len b + 1) (Py.len a)).
Proof.
  intros Ha Hb Hlen.
  apply len_pos in Ha. apply len_pos in Hb.
  rewrite <- (nth_seq_map (Rounded.correlate N (zero_mean N a)
                             (zero_mean N b))) at 1.
  rewrite Hlen. unfold Py.arange. rewrite map_map.
  replace (Z.to_nat (Py.len a - (- Py.len b + 1)))
    with (List.length a + List.length b - 1)%nat
    by (unfold Py.len in *; lia).
  apply map_ext. intro k. unfold correlation_at. f_equal.
  unfold Py.len in *. lia.
Qed.

Lemma rounded_norm_denom (a b : list Q) :
  Rounded.norm_denom N (zero_mean N a) (zero_mean N b) = normalizer N a b.
Proof.
  unfold Rounded.norm_denom, normalizer, energy.
  rewrite !zip_with_self. reflexivity.
Qed.

(** The bound of the search window in terms of the two signals. *)
Lemma rounded_max_lag_cases (a b : list Q) (sr : Z) (max_search : option Q) :
  let max_lag :=
    Rounded.max_lag_samples N (zero_mean N a) (zero_mean N b) sr max_search in
  (forall m : Q,
      max_search = Some m -> 0 < m ->
      max_lag = Py.int (Rounded.fmul N m (inject_Z sr)))
  /\ (max_search = None \/ (exists m : Q, max_search = Some m /\ m <= 0) ->
      max_lag = (Z.min (Py.len a) (Py.len b) - 1)%Z).
Proof.
  unfold Rounded.max_lag_samples. rewrite !len_zero_mean. split.
  - intros m -> Hm. apply ltb_lt in Hm. rewrite Hm. reflexivity.
  - intros [-> | (m & -> & Hm)]; [reflexivity|].
    apply ltb_ge in Hm. rewrite Hm. reflexivity.
Qed.

End RoundedXcorr.

(** C1: on two non-empty signals the estimator labels the samples of the full
    correlation with the lags from [-(len(b) - 1)] to [len(a) - 1], keeps
    those within [max_lag] of zero, where [max_lag] is [int(max_search * sr)]
    for a positive [max_search] and [min(len(a), len(b)) - 1] otherwise (also
    for [max_search = 0], which is no error), and returns [-best_lag / sr]
    for the first kept lag whose normalized score is the largest, together
    with the kept lags in seconds and their scores. The scores are the ones
    that the routines compute, ties among them included; of the routines the
    statement needs that the full correlation has [len(a) + len(b) - 1]
    samples and that the float product of two positive numbers is not
    negative. *)
Theorem estimate_offset_seconds_spec (N : Rounded.numerics) (a b : list Q)
    (sr : Z) (max_search : option Q) :
  a <> [] -> b <> [] -> (0 < sr)%Z ->
  List.length (Rounded.correlate N (zero_mean N a) (zero_mean N b))
  = (List.length a + List.length b - 1)%nat ->
  (forall m : Q, 0 < m -> 0 <= Rounded.fmul N m (inject_Z sr)) ->
  let score := normalized_score N a b in
  exists (max_lag best_lag : Z) (lags : list Z),
    ((forall m : Q,
         max_search = Some m -> 0 < m ->
         max_lag = Py.int (Rounded.fmul N m (inject_Z sr)))
     /\ (max_search = None \/ (exists m : Q, max_search = Some m /\ m <= 0) ->
         max_lag = (Z.min (Py.len a) (Py.len b) - 1)%Z))
    /\ Rounded.estimate_offset_seconds N a b sr max_search
       = Ok (Rounded.fdiv N (inject_Z (- best_lag)) (inject_Z sr),
             map (fun l =>
                    Rounded.astype_float32 N
                      (Rounded.fdiv N (inject_Z l) (inject_Z sr))) lags,
             map score lags)
    /\ StronglySorted Z.lt lags
    /\ (forall lag : Z, In lag lags <-> in_window a b max_lag lag)
    /\ In best_lag lags
    /\ (forall lag : Z, In lag lags -> score lag <= score best_lag)
    /\ (forall lag : Z,
           In lag lags -> (lag < best_lag)%Z -> score lag < score best_lag).
Proof.
  intros Ha Hb Hsr Hlen Hsign score.
  set (max_lag :=
         Rounded.max_lag_samples N (zero_mean N a) (zero_mean N b) sr
           max_search).
  destruct (rounded_max_lag_cases N a b sr max_search) as [Hpos Hfall].
  fold max_lag in Hpos, Hfall.
  assert (Hla := len_pos Ha). assert (Hlb := len_pos Hb).
  assert (Hm : (0 <= max_lag)%Z).
  { destruct max_search as [m|]; [|rewrite Hfall; [lia | left; reflexivity]].
    destruct (Qlt_le_dec 0 m) as [Hp | Hn].
    - rewrite (Hpos m eq_refl Hp). apply int_nonneg, Hsign, Hp.
    - rewrite Hfall; [lia|]. right. exists m. split; [reflexivity | exact Hn]. }
  set (lags := kept_lags a b max_lag).
  assert (H0 : In 0%Z lags).
  { apply kept_lags_In. unfold in_window. lia. }
  assert (Hne : map score lags <> []).
  { intro H. apply map_eq_nil in H. rewrite H in H0. exact H0. }
  destruct (argmax_split Hne) as (i & q1 & q2 & x & Harg & Heq & Hi & H1 & H2).
  apply map_eq_app in Heq. destruct Heq as (pre & rest & Hl & Hq1 & Hrest).
  apply map_eq_cons in Hrest.
  destruct Hrest as (best_lag & post & Hrest & Hx & Hq2).
  subst rest q1 q2 x.
  rewrite Forall_map in H1. rewrite Forall_map in H2.
  rewrite Forall_forall in H1, H2.
  exists max_lag, best_lag, lags.
  split; [split; assumption|].
  split.
  { unfold Rounded.estimate_offset_seconds.
    assert (Ea : (Py.len a =? 0)%Z = false) by (apply Z.eqb_neq; lia).
    assert (Eb : (Py.len b =? 0)%Z = false) by (apply Z.eqb_neq; lia).
    rewrite Ea, Eb. cbn [orb].
    fold (zero_mean N a). fold (zero_mean N b). cbv zeta.
    rewrite (correlate_lags N Ha Hb Hlen), !len_zero_mean, rounded_norm_denom.
    fold max_lag.
    rewrite select_map_filter, !select_mask_filter.
    fold (kept_lags a b max_lag). fold lags.
    rewrite map_map.
    change (map (fun l =>
                   Rounded.astype_float32 N
                     (Rounded.div N (correlation_at N a b l)
                        (normalizer N a b))) lags)
      with (map score lags).
    rewrite Harg. cbn [bind].
    rewrite Hl at 1. rewrite length_map in Hi. rewrite <- Hi.
    rewrite item_middle. cbn [bind].
    assert (Es : (sr =? 0)%Z = false) by (apply Z.eqb_neq; lia).
    rewrite Es. reflexivity. }
  assert (Hs := kept_lags_sorted a b max_lag). fold lags in Hs.
  split; [exact Hs|].
  split; [apply kept_lags_In|].
  rewrite Hl in *.
  split; [apply in_elt|].
  split.
  - intros lag Hin. apply in_app_or in Hin.
    destruct Hin as [Hin | [<- | Hin]].
    + apply Qlt_le_weak, H1, Hin.
    + apply Qle_refl.
    + apply H2, Hin.
  - intros lag Hin Hlt. apply in_app_or in Hin.
    destruct Hin as [Hin | [<- | Hin]].
    + apply H1, Hin.
    + lia.
    + apply sorted_after in Hs. rewrite Forall_forall in Hs.
      specialize (Hs lag Hin). lia.
Qed.

(** The exact product of two positive numbers is positive. *)
Lemma exact_fmul_nonneg (sqrt : Q -> Q) (sr : Z) :
  (0 < sr)%Z ->
  forall m : Q, 0 < m -> 0 <= Rounded.fmul (exact sqrt) m (inject_Z sr).
Proof.
  intros Hsr m Hm. cbn [Rounded.fmul exact].
  apply Qmult_le_0_compat; [lra|].
  change 0 with (inject_Z 0). rewrite <- Zle_Qle. lia.
Qed.

Lemma estimate_offset_seconds_spec_witness :
  exists (best_lag : Z) (lags : list Z),
    Rounded.estimate_offset_seconds (exact sqrt_floor) [1; 2; 3; 0; 0]
      [0; 0; 1; 2; 3] 1 (Some 0)
    = Ok (Rounded.fdiv (exact sqrt_floor) (inject_Z (- best_lag)) (inject_Z 1),
          map (fun l => inject_Z l / inject_Z 1) lags,
          map (normalized_score (exact sqrt_floor) [1; 2; 3; 0; 0]
                 [0; 0; 1; 2; 3]) lags)
    /\ In best_lag lags
    /\ (forall lag : Z, In lag lags <-> (-4 <= lag <= 4)%Z).
Proof.
  destruct (@estimate_offset_seconds_spec (exact sqrt_floor) [1; 2; 3; 0; 0]
              [0; 0; 1; 2; 3] 1 (Some 0)
              ltac:(discriminate) ltac:(discriminate) eq_refl eq_refl
              (@exact_fmul_nonneg sqrt_floor 1 eq_refl))
    as (max_lag & best_lag & lags & [_ Hmax] & Hrun & _ & Hin & Hbest & _).
  exists best_lag, lags.
  split; [exact Hrun|]. split; [exact Hbest|].
  intro lag. rewrite Hin.
  rewrite Hmax
    by (right; exists 0; split; [reflexivity | discriminate]).
  unfold in_window. change (Py.len [1; 2; 3; 0; 0]) with 5%Z.
  change (Py.len [0; 0; 1; 2; 3]) with 5%Z. lia.
Defined.

(** With the exact routines the estimator is the one of [Xcorr]. *)
Lemma exact_estimate_offset_seconds (sqrt : Q -> Q) (a b : list Q) (sr : Z)
    (max_search : option Q) :
  Rounded.estimate_offset_seconds (exact sqrt) a b sr max_search
  = Xcorr.estimate_offset_seconds sqrt a b sr max_search.
Proof. reflexivity. Qed.

(** C10: on two non-empty signals [max_lag] is never negative and lag 0 is
    within the window, so the kept lags are not empty, the argmax is defined
    and the estimator returns non-empty lag and score sequences of the same
    length. *)
Theorem lag_window_nonempty (np_sqrt : Q -> Q) (a b : list Q) (sr : Z)
    (max_search : option Q) :
  a <> [] -> b <> [] -> (0 < sr)%Z ->
  let max_lag :=
    Xcorr.max_lag_samples (centered a) (centered b) sr max_search in
  (0 <= max_lag)%Z
  /\ in_window a b max_lag 0
  /\ exists (offset_sec : Q) (lags_sec corr_norm : list Q),
       Xcorr.estimate_offset_seconds np_sqrt a b sr max_search
       = Ok (offset_sec, lags_sec, corr_norm)
       /\ lags_sec <> []
       /\ corr_norm <> []
       /\ List.length lags_sec = List.length corr_norm
       /\ In (inject_Z 0 / inject_Z sr) lags_sec.
Proof.
  intros Ha Hb Hsr max_lag.
  split; [apply max_lag_nonneg; assumption|].
  assert (H0 := zero_lag_kept max_search Ha Hb Hsr). fold max_lag in H0.
  split; [apply kept_lags_In; exact H0|].
  destruct (estimate_offset_seconds_run np_sqrt max_search Ha Hb Hsr)
    as (best_lag & pre & post & Hl & _ & _ & Hrun).
  fold max_lag in Hl, Hrun.
  eexists. eexists. eexists.
  split; [exact Hrun|].
  split; [intro H; apply map_eq_nil in H; rewrite H in H0; exact H0|].
  split; [intro H; apply map_eq_nil in H; rewrite H in H0; exact H0|].
  split; [rewrite !length_map; reflexivity|].
  apply (in_map (fun l => inject_Z l / inject_Z sr)). exact H0.
Qed.

Lemma lag_window_nonempty_witness :
  exists (offset_sec : Q) (lags_sec corr_norm : list Q),
    Xcorr.estimate_offset_seconds sqrt_floor [1; 2; 3] [0; 1] 8000
      (Some (1 # 100000))
    = Ok (offset_sec, lags_sec, corr_norm)
    /\ lags_sec <> []
    /\ List.length lags_sec = List.length corr_norm.
Proof.
  destruct (@lag_window_nonempty sqrt_floor [1; 2; 3] [0; 1] 8000
              (Some (1 # 100000))
              ltac:(discriminate) ltac:(discriminate) eq_refl)
    as (_ & _ & o & l & c & Hrun & Hl & _ & Hlen & _).
  exists o, l, c. split; [exact Hrun|]. split; [exact Hl | exact Hlen].
Defined.

(** ** Empty signals *)

Lemma estimate_offset_seconds_empty (np_sqrt : Q -> Q) (a b : list Q)
    (sr : Z) (max_search : option Q) :
  a = [] \/ b = [] ->
  Xcorr.estimate_offset_seconds np_sqrt a b sr max_search
  = Ok (0, [0], [1]).
Proof.
  intro H. unfold Xcorr.estimate_offset_seconds.
  assert (E : ((Py.len a =? 0) || (Py.len b =? 0))%Z = true).
  { apply orb_true_iff. destruct H as [-> | ->]; [left | right]; reflexivity. }
  rewrite E. reflexivity.
Qed.

Lemma slice_empty_window {A : Type} (l : list A) (start : Z) :
  Py.slice l start (start + 0) = [].
Proof.
  unfold Py.slice. rewrite Z.add_0_r, Z.sub_diag. reflexivity.
Qed.

(** With an empty signal and a template duration that is not negative the
    content estimator finds no anchor, or the anchor at time zero. *)
Lemma find_content_anchor_empty (np_sqrt : Q -> Q)
    (mfcc_mean : list Q -> Z -> list Q) (a_an b_an : list Q) (sr : Z)
    (template_sec hop_sec min_sim : Q) :
  a_an = [] \/ b_an = [] -> (0 < sr)%Z -> 0 <= template_sec ->
  let r := Content.find_content_anchor np_sqrt mfcc_mean a_an b_an sr
             template_sec hop_sec min_sim in
  r = Ok None \/ r = Ok (Some (inject_Z 0 / inject_Z sr)).
Proof.
  intros Hempty Hsr Ht r. subst r. unfold Content.find_content_anchor.
  set (tmpl_len := Py.int (template_sec * inject_Z sr)).
  set (hop := Z.max 1 (Py.int (hop_sec * inject_Z sr))).
  set (last_start := Z.max 0 (Py.len b_an - tmpl_len)).
  set (v1 := mfcc_mean (Py.slice_to a_an tmpl_len) sr).
  assert (Htl : (0 <= tmpl_len)%Z).
  { apply int_nonneg. apply Qmult_le_0_compat; [exact Ht|].
    change 0 with (inject_Z 0). rewrite <- Zle_Qle. lia. }
  destruct (Py.len a_an <? tmpl_len)%Z eqn:E; [left; reflexivity|].
  apply Z.ltb_ge in E.
  destruct (@scan_range_first np_sqrt mfcc_mean v1 b_an sr tmpl_len min_sim
              hop last_start)
    as [(k & Hk0 & Hk1 & Hq & Hpre & Hrun) | (_ & Hrun)];
    [lia | subst hop; lia | subst last_start; lia | | left; exact Hrun].
  right. rewrite Hrun.
  assert (Hk : k = 0%Z); [|subst k; reflexivity].
  destruct (Z.eq_dec k 0) as [Hz | Hnz]; [exact Hz | exfalso].
  destruct Hempty as [-> | ->].
  - assert (Hz : tmpl_len = 0%Z)
      by (change (Py.len (@nil Q)) with 0%Z in E; lia).
    specialize (Hpre 0%Z ltac:(lia)).
    unfold Content.window_sim in Hq, Hpre. rewrite Hz in Hq, Hpre.
    rewrite slice_empty_window in Hq, Hpre. lra.
  - change (Py.len (@nil Q)) with 0%Z in last_start.
    assert (Hl : last_start = 0%Z) by (subst last_start; lia).
    assert (1 <= hop)%Z by (subst hop; lia). nia.
Qed.

(** C4: with an empty reference or an empty target the cross-correlation
    estimator returns the offset 0 with the one-point curve [([0], [1])]
    whatever the sample rate and the search radius, so the cross-correlation
    path reports the difference of the two analysis starts only; and for a
    positive sample rate and a template duration that is not negative the
    content path reports the same offset, through its own anchor at time
    zero or through the fallback. *)
Theorem empty_signal_zero_offset (np_sqrt : Q -> Q)
    (mfcc_mean : list Q -> Z -> list Q) (a b : list Q) (sr : Z)
    (max_search : option Q) (params : Window.AlignmentParameters) :
  a = [] \/ b = [] ->
  Xcorr.estimate_offset_seconds np_sqrt a b sr max_search = Ok (0, [0], [1])
  /\ Window.xcorr_offset np_sqrt a b sr params
     = Ok (0 + (Window.ref_start_sec params - Window.search_start_sec params))
  /\ ((0 < sr)%Z -> 0 <= Window.template_sec params ->
      exists offset_sec : Q,
        Window.anchor_offset np_sqrt mfcc_mean a b sr params = Ok offset_sec
        /\ offset_sec
           == Window.ref_start_sec params - Window.search_start_sec params).
Proof.
  intro Hempty.
  split; [apply estimate_offset_seconds_empty; exact Hempty|].
  assert (Hx : Window.xcorr_offset np_sqrt a b sr params
               = Ok (0 + (Window.ref_start_sec params
                          - Window.search_start_sec params))).
  { unfold Window.xcorr_offset.
    rewrite estimate_offset_seconds_empty by exact Hempty. reflexivity. }
  split; [exact Hx|].
  intros Hsr Ht. unfold Window.anchor_offset.
  destruct (String.eqb (Window.anchor_mode params) "xcorr").
  - eexists. split; [exact Hx | ring].
  - destruct (@find_content_anchor_empty np_sqrt mfcc_mean a b sr
                (Window.template_sec params) (Window.hop_sec params)
                (Window.min_sim params) Hempty Hsr Ht) as [-> | ->];
      cbn [bind].
    + eexists. split; [exact Hx | ring].
    + eexists. split; [reflexivity|].
      unfold Qdiv. change (inject_Z 0) with 0. ring.
Qed.

Lemma empty_signal_zero_offset_witness :
  Xcorr.estimate_offset_seconds sqrt_floor [] [1; 2; 3] 0 (Some 1)
  = Ok (0, [0], [1]).
Proof.
  apply (@empty_signal_zero_offset sqrt_floor head_features [] [1; 2; 3] 0
           (Some 1)
           (Window.Build_AlignmentParameters "xcorr" None 1 0 0 30 4
              (1 # 10) (78 # 100))
           (or_introl eq_refl)).
Defined.

(** * Further properties of the code *)

(** ** The amplitude gate, again *)

(** Gating a gated signal with the same threshold changes nothing: a sample
    that was zeroed stays zero whatever its level is now, and a sample that
    was kept has the level it had. *)
Theorem apply_gate_db_idempotent (np_log10 : Q -> Q) (y : list Q)
    (threshold_db : option Q) :
  Gate.apply_gate_db np_log10
    (Gate.apply_gate_db np_log10 y threshold_db) threshold_db
  = Gate.apply_gate_db np_log10 y threshold_db.
Proof.
  destruct threshold_db as [t|]; [|reflexivity].
  rewrite !apply_gate_db_map, map_map.
  apply map_ext. intro s.
  destruct (Py.ltb (20 * np_log10 (Qabs s + eps)) t) eqn:E.
  - destruct (Py.ltb (20 * np_log10 (Qabs 0 + eps)) t); reflexivity.
  - rewrite E. reflexivity.
Qed.

(** The gate acts sample by sample, so it commutes with every slice: gating
    a slice is slicing the gated signal. *)
Theorem apply_gate_db_slice (np_log10 : Q -> Q) (y : list Q)
    (threshold_db : option Q) (start stop : Z) :
  Gate.apply_gate_db np_log10 (Py.slice y start stop) threshold_db
  = Py.slice (Gate.apply_gate_db np_log10 y threshold_db) start stop.
Proof.
  destruct threshold_db as [t|]; [|reflexivity].
  rewrite !apply_gate_db_map. unfold Py.slice.
  rewrite len_map, skipn_map, firstn_map. reflexivity.
Qed.

(** ** The shift command builder, again *)

(** The command never mentions the file that stays in place: under
    [external_to_inhouse] it does not depend on the in-house path, under
    [inhouse_to_external] not on the external path. *)
Theorem build_align_command_ignores_reference (inhouse inhouse' : string)
    (external external' : string) (sr : Z) (offset : Q) (prefer_trim : bool)
    (out_audio : option string) :
  Shift.build_align_command inhouse external sr external_to_inhouse offset
    prefer_trim out_audio
  = Shift.build_align_command inhouse' external sr external_to_inhouse offset
      prefer_trim out_audio
  /\ Shift.build_align_command inhouse external sr inhouse_to_external offset
       prefer_trim out_audio
     = Shift.build_align_command inhouse external' sr inhouse_to_external
         offset prefer_trim out_audio.
Proof.
  rewrite !build_align_command_valid
    by (first [left; reflexivity | right; reflexivity]).
  split; reflexivity.
Qed.

Lemma floor_unit_interval (x : Q) : 0 <= x -> x < 1 -> Qfloor x = 0%Z.
Proof.
  intros H0 H1.
  assert (Hlo : (0 <= Qfloor x)%Z).
  { change 0%Z with (Qfloor 0). apply Qfloor_resp_le. exact H0. }
  assert (Hhi : (Qfloor x < 1)%Z).
  { rewrite Zlt_Qlt. eapply Qle_lt_trans; [apply Qfloor_le | exact H1]. }
  lia.
Qed.

(** [round] of a number between 0 and one half is 0: the tie goes to the
    even neighbour. *)
Lemma round_to_zero (x : Q) : 0 <= x -> x <= 1 # 2 -> Py.round x = 0%Z.
Proof.
  intros H0 H1. unfold Py.round.
  rewrite (floor_unit_interval H0) by lra.
  change (inject_Z 0) with 0.
  destruct (Py.ltb (x - 0) (1 # 2)) eqn:E1; [reflexivity|].
  destruct (Py.ltb (1 # 2) (x - 0)) eqn:E2; [|reflexivity].
  apply ltb_lt in E2. lra.
Qed.

Lemma round_ge_floor (x : Q) : (Qfloor x <= Py.round x)%Z.
Proof.
  unfold Py.round.
  repeat match goal with |- context [if ?c then _ else _] => destruct c end;
    lia.
Qed.

(** The smallest shifts: an effective offset above the dead zone whose
    product with 1000 is at most one half still gives a pad command, of 0
    milliseconds; a trim always cuts at least one microsecond. *)
Theorem smallest_shift_amounts (N : Rounded.numerics)
    (inhouse external : string) (sr : Z) (mode : string) (offset : Q)
    (prefer_trim : bool) (out_audio : option string) :
  valid_mode mode ->
  let eff := effective_offset mode offset in
  let target := moving_file mode inhouse external in
  let out_path := Py.or_default out_audio (default_out mode) in
  let cmd := Rounded.build_align_command N inhouse external sr mode offset
               prefer_trim out_audio in
  (1 # 1000000 < eff ->
   0 <= Rounded.fmul N eff 1000 -> Rounded.fmul N eff 1000 <= 1 # 2 ->
   cmd = Ok (ffmpeg_command target sr (PadHead 0) out_path))
  /\ (eff < - (1 # 1000000) ->
      exists n : Z,
        (1 <= n)%Z
        /\ cmd
           = Ok (ffmpeg_command target sr (TrimHead (Py.render6 n))
                   out_path)).
Proof.
  intros Hm eff target out_path cmd. subst cmd.
  rewrite (rounded_build_align_command_valid N inhouse external sr offset
             prefer_trim out_audio Hm).
  fold eff target out_path.
  split.
  - intros Hlo H0 Hhi.
    assert (E1 : Py.ltb eff (- (1 # 1000000)) = false)
      by (apply ltb_ge; lra).
    assert (E2 : Py.ltb (1 # 1000000) eff = true) by (apply ltb_lt; lra).
    rewrite E1, E2, round_to_zero by assumption. reflexivity.
  - intro Hlt.
    assert (E1 : Py.ltb eff (- (1 # 1000000)) = true)
      by (apply ltb_lt; exact Hlt).
    rewrite E1.
    assert (Habs : 1 # 1000000 < Qabs eff).
    { rewrite Qabs_neg by lra. lra. }
    assert (Hmax : Py.max 0 (Qabs eff) = Qabs eff).
    { unfold Py.max.
      assert (E : Py.ltb 0 (Qabs eff) = true) by (apply ltb_lt; lra).
      rewrite E. reflexivity. }
    exists (Py.round (Qabs eff * 1000000)).
    split.
    + eapply Z.le_trans; [|apply round_ge_floor].
      change 1%Z with (Qfloor 1). apply Qfloor_resp_le. lra.
    + rewrite Hmax. reflexivity.
Qed.

Lemma smallest_shift_amounts_witness :
  Rounded.build_align_command (exact sqrt_floor) "in.wav" "ex.wav" 48000
    external_to_inhouse (1 # 2000) false None
  = Ok (ffmpeg_command "ex.wav" 48000 (PadHead 0) "external_aligned.wav").
Proof.
  destruct (@smallest_shift_amounts (exact sqrt_floor) "in.wav" "ex.wav"
              48000 external_to_inhouse (1 # 2000) false None
              (or_introl eq_refl))
    as [H _].
  apply H; [reflexivity | discriminate | discriminate].
Defined.

(** ** The cross-correlation offset estimator, again *)






Lemma sr_inv_nonneg (sr : Z) : (0 < sr)%Z -> 0 <= / inject_Z sr.
Proof.
  intro H. apply Qinv_le_0_compat.
  change 0 with (inject_Z 0). rewrite <- Zle_Qle. lia.
Qed.

Lemma div_sr_le (x y sr : Z) :
  (0 < sr)%Z -> (x <= y)%Z ->
  inject_Z x / inject_Z sr <= inject_Z y / inject_Z sr.
Proof.
  intros Hsr Hxy. unfold Qdiv.
  apply Qmult_le_compat_r; [rewrite <- Zle_Qle; exact Hxy|].
  apply sr_inv_nonneg. exact Hsr.
Qed.





(** *** Silent signals *)







(** ** The analysis window and the choice of estimator, again *)

Lemma len_firstn_le {A : Type} (n : nat) (l : list A) :
  (Py.len (firstn n l) <= Py.len l)%Z.
Proof. unfold Py.len. rewrite length_firstn. lia. Qed.



Lemma gate_nil (np_log10 : Q -> Q) (threshold_db : option Q) :
  Gate.apply_gate_db np_log10 [] threshold_db = [].
Proof. destruct threshold_db; reflexivity. Qed.

Lemma slice_from_nil {A : Type} (start : Z) :
  Py.slice_from (@nil A) start = [].
Proof. unfold Py.slice_from. apply skipn_nil. Qed.

(** A start at or beyond the end leaves nothing. *)
Lemma slice_from_beyond {A : Type} (l : list A) (start : Z) :
  (Py.len l <= start)%Z -> Py.slice_from l start = [].
Proof.
  intro H. assert (Hl := len_nonneg l).
  unfold Py.slice_from, Py.clamp_index.
  destruct (start <? 0)%Z eqn:E; [apply Z.ltb_lt in E; lia|].
  rewrite Z.min_r by exact H. unfold Py.len.
  rewrite Nat2Z.id. apply skipn_all.
Qed.

(** The target after the last step of the builder. *)
Lemma bound_target_cut (a_an b_an : list Q) (sr : Z) (max_search : Q) :
  (0 < sr)%Z ->
  Window.bound_target a_an b_an sr max_search
  = (a_an,
     firstn (Z.to_nat (Py.len a_an
                       + 2 * Window.search_pad a_an b_an sr max_search))
       b_an).
Proof.
  intro Hsr. unfold Window.bound_target. cbv zeta.
  set (pad := Window.search_pad a_an b_an sr max_search).
  assert (Hpad : (0 <= pad)%Z) by (apply search_pad_nonneg; exact Hsr).
  assert (Hlen := len_nonneg a_an).
  f_equal.
  destruct (Py.len b_an >? Py.len a_an + 2 * pad)%Z eqn:E.
  - apply slice_to_firstn. lia.
  - symmetry. apply firstn_all2.
    rewrite Z.gtb_ltb in E. apply Z.ltb_ge in E. unfold Py.len in *. lia.
Qed.


Section WindowFacts.

Variable np_log10 : Q -> Q.
Variables (a_raw b_raw : list Q) (sr : Z).
Variable params : Window.AlignmentParameters.
Hypothesis sr_pos : (0 < sr)%Z.

(** The two signals before the last step of the builder. *)
Let a_sliced : list Q :=
  if Py.ltb 0 (Window.ref_start_sec params) then
    Py.slice_from a_raw (Py.int (Window.ref_start_sec params * inject_Z sr))
  else a_raw.

Let b_sliced : list Q :=
  if Py.ltb 0 (Window.search_start_sec params) then
    Py.slice_from b_raw
      (Py.int (Window.search_start_sec params * inject_Z sr))
  else b_raw.

Let a_gated : list Q :=
  Gate.apply_gate_db np_log10 a_sliced (Window.threshold_db params).

Let b_gated : list Q :=
  Gate.apply_gate_db np_log10 b_sliced (Window.threshold_db params).

Let a_capped : list Q :=
  if Window.truthy (Window.analysis_sec params)
     && Py.ltb 0 (Window.analysis_sec params) then
    if (Py.len a_gated
        >? Py.int (Window.analysis_sec params * inject_Z sr))%Z then
      Py.slice_to a_gated
        (Py.int (Window.analysis_sec params * inject_Z sr))
    else a_gated
  else a_gated.

Lemma analysis_window_steps :
  Window.analysis_window np_log10 a_raw b_raw sr params
  = (a_capped,
     firstn (Z.to_nat (Py.len a_capped
                       + 2 * Window.search_pad a_capped b_gated sr
                               (Window.max_search params)))
       b_gated).
Proof.
  unfold Window.analysis_window. cbv zeta.
  fold a_sliced. fold b_sliced. fold a_gated. fold b_gated. fold a_capped.
  apply bound_target_cut. exact sr_pos.
Qed.



Lemma a_capped_len :
  (Py.len a_capped <= Py.len a_gated)%Z
  /\ (0 < Window.analysis_sec params ->
      (Py.len a_capped
       <= Py.int (Window.analysis_sec params * inject_Z sr))%Z).
Proof.
  subst a_capped.
  destruct (Window.truthy (Window.analysis_sec params)
            && Py.ltb 0 (Window.analysis_sec params)) eqn:E.
  - apply positive_search_test in E.
    assert (Hm : (0 <= Py.int (Window.analysis_sec params * inject_Z sr))%Z).
    { apply int_nonneg. apply Qmult_le_0_compat; [lra|].
      change 0 with (inject_Z 0). rewrite <- Zle_Qle. lia. }
    destruct (Py.len a_gated
              >? Py.int (Window.analysis_sec params * inject_Z sr))%Z eqn:G.
    + rewrite slice_to_firstn by exact Hm.
      split; [apply len_firstn_le|]. intros _.
      unfold Py.len. rewrite length_firstn. lia.
    + rewrite Z.gtb_ltb in G. apply Z.ltb_ge in G. split; [lia|].
      intros _. exact G.
  - split; [lia|]. intro H. apply positive_search_test in H. congruence.
Qed.


(** A start past the end of a signal, or an empty signal, leaves an empty
    analysis window on that side. *)
Lemma analysis_window_empty :
  a_raw = []
  \/ b_raw = []
  \/ (0 < Window.ref_start_sec params
      /\ (Py.len a_raw
          <= Py.int (Window.ref_start_sec params * inject_Z sr))%Z)
  \/ (0 < Window.search_start_sec params
      /\ (Py.len b_raw
          <= Py.int (Window.search_start_sec params * inject_Z sr))%Z) ->
  fst (Window.analysis_window np_log10 a_raw b_raw sr params) = []
  \/ snd (Window.analysis_window np_log10 a_raw b_raw sr params) = [].
Proof.
  intro H. rewrite analysis_window_steps. cbn [fst snd].
  assert (Hside : a_sliced = [] \/ b_sliced = []).
  { subst a_sliced b_sliced.
    destruct H as [E | [E | [[Hp Hl] | [Hp Hl]]]].
    - left. rewrite E.
      destruct (Py.ltb 0 (Window.ref_start_sec params));
        [apply slice_from_nil | reflexivity].
    - right. rewrite E.
      destruct (Py.ltb 0 (Window.search_start_sec params));
        [apply slice_from_nil | reflexivity].
    - left. apply ltb_lt in Hp. rewrite Hp.
      apply slice_from_beyond. exact Hl.
    - right. apply ltb_lt in Hp. rewrite Hp.
      apply slice_from_beyond. exact Hl. }
  destruct Hside as [E | E].
  - left. assert (Hg : a_gated = []).
    { subst a_gated. rewrite E. apply gate_nil. }
    assert (Hcap := proj1 a_capped_len). rewrite Hg in Hcap.
    change (Py.len (@nil Q)) with 0%Z in Hcap.
    assert (Hn := len_nonneg a_capped).
    apply len_zero_iff. apply Z.eqb_eq. lia.
  - right. assert (Hg : b_gated = []).
    { subst b_gated. rewrite E. apply gate_nil. }
    rewrite Hg. apply firstn_nil.
Qed.

End WindowFacts.


(** ** From the raw signals to the offset *)

Section PipelineFacts.

Variable np_log10 : Q -> Q.
Variable np_sqrt : Q -> Q.
Variable mfcc_mean : list Q -> Z -> list Q.

(** With an empty signal the chosen estimator reports the difference of the
    two analysis starts. *)
Lemma anchor_offset_empty (a b : list Q) (sr : Z)
    (params : Window.AlignmentParameters) :
  a = [] \/ b = [] -> (0 < sr)%Z -> 0 <= Window.template_sec params ->
  exists offset_sec : Q,
    Window.anchor_offset np_sqrt mfcc_mean a b sr params = Ok offset_sec
    /\ offset_sec
       == Window.ref_start_sec params - Window.search_start_sec params.
Proof.
  intros Hempty Hsr Ht.
  assert (Hx : Window.xcorr_offset np_sqrt a b sr params
               = Ok (0 + (Window.ref_start_sec params
                          - Window.search_start_sec params))).
  { unfold Window.xcorr_offset.
    rewrite estimate_offset_seconds_empty by exact Hempty. reflexivity. }
  unfold Window.anchor_offset.
  destruct (String.eqb (Window.anchor_mode params) "xcorr").
  - eexists. split; [exact Hx | ring].
  - destruct (@find_content_anchor_empty np_sqrt mfcc_mean a b sr
                (Window.template_sec params) (Window.hop_sec params)
                (Window.min_sim params) Hempty Hsr Ht) as [-> | ->];
      cbn [bind].
    + eexists. split; [exact Hx | ring].
    + eexists. split; [reflexivity|].
      unfold Qdiv. change (inject_Z 0) with 0. ring.
Qed.

(** An analysis start at or past the end of its signal, like an empty
    signal, is no error: the computed offset is then the difference of the
    two analysis starts, [ref_start_sec - search_start_sec], in both anchor
    modes. *)
Theorem start_past_end_offset (a_raw b_raw : list Q) (sr : Z)
    (params : Window.AlignmentParameters) :
  (0 < sr)%Z -> 0 <= Window.template_sec params ->
  a_raw = []
  \/ b_raw = []
  \/ (0 < Window.ref_start_sec params
      /\ (Py.len a_raw
          <= Py.int (Window.ref_start_sec params * inject_Z sr))%Z)
  \/ (0 < Window.search_start_sec params
      /\ (Py.len b_raw
          <= Py.int (Window.search_start_sec params * inject_Z sr))%Z) ->
  exists offset_sec : Q,
    Pipeline.analysis_offset np_log10 np_sqrt mfcc_mean a_raw b_raw sr params
    = Ok offset_sec
    /\ offset_sec
       == Window.ref_start_sec params - Window.search_start_sec params.
Proof.
  intros Hsr Ht Hcase.
  assert (He := @analysis_window_empty np_log10 a_raw b_raw sr params Hsr
                  Hcase).
  unfold Pipeline.analysis_offset.
  destruct (Window.analysis_window np_log10 a_raw b_raw sr params)
    as [a_an b_an].
  cbn [fst snd] in He.
  apply anchor_offset_empty; assumption.
Qed.

(** A content anchor is a time in the target, so the content path can only
    move the offset down from the difference of the analysis starts, and by
    no more than the last window start: with an anchor at [t] the offset is
    [ref_start_sec - (t + search_start_sec)] and
    [0 <= t <= max(0, len(b) - template_length) / sr]. *)
Theorem content_offset_bounds (a b : list Q) (sr : Z)
    (params : Window.AlignmentParameters) (t : Q) :
  (0 < sr)%Z ->
  String.eqb (Window.anchor_mode params) "xcorr" = false ->
  Content.find_content_anchor np_sqrt mfcc_mean a b sr
    (Window.template_sec params) (Window.hop_sec params)
    (Window.min_sim params) = Ok (Some t) ->
  let start_diff :=
    Window.ref_start_sec params - Window.search_start_sec params in
  let last_start :=
    Z.max 0 (Py.len b
             - Py.int (Window.template_sec params * inject_Z sr)) in
  exists offset_sec : Q,
    Window.anchor_offset np_sqrt mfcc_mean a b sr params = Ok offset_sec
    /\ offset_sec == start_diff - t
    /\ 0 <= t
    /\ t <= inject_Z last_start / inject_Z sr
    /\ offset_sec <= start_diff
    /\ start_diff - inject_Z last_start / inject_Z sr <= offset_sec.
Proof.
  intros Hsr Hmode Hfind start_diff last_start.
  assert (Ht : 0 <= t /\ t <= inject_Z last_start / inject_Z sr).
  { revert Hfind. unfold Content.find_content_anchor.
    destruct (Py.len a
              <? Py.int (Window.template_sec params * inject_Z sr))%Z;
      [discriminate|].
    fold last_start.
    match goal with
    | |- context [Content.scan _ _ ?v1 _ _ ?tl _ (Py.range 0 _ ?hop)] =>
        destruct (@scan_range_first np_sqrt mfcc_mean v1 b sr tl
                    (Window.min_sim params) hop last_start)
          as [(k & Hk0 & Hk1 & _ & _ & Hrun) | (_ & Hrun)];
          [lia | lia | subst last_start; lia | |];
          rewrite Hrun; intro E; [|discriminate];
          injection E as <-;
          assert (Hh : (1 <= hop)%Z) by lia
    end.
    split.
    - unfold Qdiv. apply Qmult_le_0_compat; [|apply sr_inv_nonneg; exact Hsr].
      change 0 with (inject_Z 0). rewrite <- Zle_Qle. nia.
    - apply div_sr_le; [exact Hsr | exact Hk1]. }
  unfold Window.anchor_offset. rewrite Hmode, Hfind. cbn [bind].
  eexists. split; [reflexivity|].
  destruct Ht as [Ht0 Ht1]. subst start_diff.
  split; [ring|]. split; [exact Ht0|]. split; [exact Ht1|].
  split; lra.
Qed.

End PipelineFacts.

Lemma sqrt_floor_example_offset :
  Content.find_content_anchor sqrt_floor head_features [3; 4; 0] [0; 3; 4] 1
    2 1 (9 # 10)
  = Ok (Some 1).
Proof. vm_compute. reflexivity. Qed.

Lemma start_past_end_offset_witness :
  exists offset_sec : Q,
    Pipeline.analysis_offset sqrt_floor sqrt_floor head_features [1; 2; 3]
      [4; 5; 6; 7] 2
      (Window.Build_AlignmentParameters "content" None 60 2 0 30 4 (1 # 10)
         (78 # 100))
    = Ok offset_sec
    /\ offset_sec == 2.
Proof.
  destruct (@start_past_end_offset sqrt_floor sqrt_floor head_features
              [1; 2; 3] [4; 5; 6; 7] 2
              (Window.Build_AlignmentParameters "content" None 60 2 0 30 4
                 (1 # 10) (78 # 100)) eq_refl ltac:(discriminate))
    as (off & Hrun & Hoff).
  - right. right. left. split; [reflexivity | discriminate].
  - exists off. split; [exact Hrun|]. rewrite Hoff. reflexivity.
Defined.

Lemma content_offset_bounds_witness :
  exists offset_sec : Q,
    Window.anchor_offset sqrt_floor head_features [3; 4; 0] [0; 3; 4] 1
      (Window.Build_AlignmentParameters "content" None 60 0 0 30 2 1
         (9 # 10))
    = Ok offset_sec
    /\ offset_sec <= 0.
Proof.
  destruct (@content_offset_bounds sqrt_floor head_features [3; 4; 0]
              [0; 3; 4] 1
              (Window.Build_AlignmentParameters "content" None 60 0 0 30 2 1
                 (9 # 10)) 1 eq_refl eq_refl sqrt_floor_example_offset)
    as (off & Hrun & _ & _ & _ & Hle & _).
  exists off. split; [exact Hrun | exact Hle].
Defined.

(** ** The points of the similarity plot *)








(** ** Identical signals *)

Section Autocorrelation.

(** The inner product of two arrays, up to the end of the shorter one. *)
Let dot (u w : list Q) : Q := Np.sum (Np.zip_with Qmult u w).























End Autocorrelation.





(** ** The retention script *)

Section PurgeFacts.

Import Purge.

Variables job_retention_days raw_audio_only_days now : Z.

Let decide : job -> outcome action :=
  retention_action job_retention_days raw_audio_only_days now.

(** The age thresholds of the decision, for a job that is not pinned and
    whose time stamps carry a time zone: the whole job goes when it was
    created more than [job_retention_days] ago; otherwise its raw uploads go
    when it has raw audio and its deadline lies more than
    [raw_audio_only_days] in the past, where the deadline is [expires_at]
    or, without one, [created_at + raw_audio_only_days]: without an explicit
    expiry the uploads go only after twice [raw_audio_only_days], and never
    on their own when that is [job_retention_days] or more. *)
Theorem retention_thresholds (c : Z) (expiry : option Z) (raw : bool) :
  let j := {| created_at := Some {| aware := true; instant := c |};
              expires_at :=
                option_map (fun e => {| aware := true; instant := e |})
                  expiry;
              has_raw_audio := raw;
              pinned := false |} in
  let age := (now - c)%Z in
  (decide j = Done PurgeJob <-> (days job_retention_days < age)%Z)
  /\ (expiry = None ->
      (decide j = Done PurgeRaw
       <-> raw = true
           /\ (age <= days job_retention_days)%Z
           /\ (2 * days raw_audio_only_days < age)%Z))
  /\ (forall e : Z,
         expiry = Some e ->
         (decide j = Done PurgeRaw
          <-> raw = true
              /\ (age <= days job_retention_days)%Z
              /\ (e + days raw_audio_only_days < now)%Z))
  /\ (expiry = None ->
      (job_retention_days <= 2 * raw_audio_only_days)%Z ->
      decide j <> Done PurgeRaw).
Proof.
  intros j age. subst decide j age.
  unfold retention_action, raw_audio_action, before, plus_days, days.
  cbn [pinned created_at expires_at has_raw_audio aware instant].
  destruct (c <? now - job_retention_days * 86400000000)%Z eqn:E1.
  - apply Z.ltb_lt in E1.
    split; [split; [intros _; lia | reflexivity]|].
    split; [intros _; split; [discriminate | intros (_ & H & _); lia]|].
    split; [intros e _; split; [discriminate | intros (_ & H & _); lia]|].
    intros _ _. discriminate.
  - apply Z.ltb_ge in E1.
    assert (Hnot : forall o : outcome action,
               (o = Done PurgeJob -> False) ->
               (o = Done PurgeJob
                <-> (job_retention_days * 86400000000 < now - c)%Z)).
    { intros o Ho. split; [intro H; destruct (Ho H) | intro H; lia]. }
    destruct raw.
    + destruct expiry as [e|]; cbn [option_map aware instant].
      * destruct (e <? now - raw_audio_only_days * 86400000000)%Z eqn:E2;
          [apply Z.ltb_lt in E2 | apply Z.ltb_ge in E2];
          (split; [apply Hnot; discriminate|]);
          (split; [discriminate|]);
          (split; [|discriminate]);
          intros e' He; injection He as <-;
          (split; [intro H; try discriminate H; repeat split; lia
                  | intros (_ & _ & H); try reflexivity; lia]).
      * destruct (c + raw_audio_only_days * 86400000000
                  <? now - raw_audio_only_days * 86400000000)%Z eqn:E2;
          [apply Z.ltb_lt in E2 | apply Z.ltb_ge in E2];
          (split; [apply Hnot; discriminate|]);
          (split;
           [intros _;
            split; [intro H; try discriminate H; repeat split; lia
                   | intros (_ & _ & H); try reflexivity; lia]|]);
          (split; [discriminate|]);
          intros _ Hle; try discriminate; lia.
    + split; [apply Hnot; destruct expiry; discriminate|].
      split; [intros _; split; [destruct expiry; discriminate
                               | intros (H & _); discriminate]|].
      split; [intros e _; split; [destruct expiry; discriminate
                                 | intros (H & _); discriminate]|].
      intros _ _. destruct expiry; discriminate.
Qed.

(** The edges of the decision: a pinned job is skipped before any of its
    fields is compared; a job file with neither [created_at] nor
    [expires_at], such as the service writes, is never purged; and a job
    that is not pinned and whose [created_at] carries no time zone stops the
    script with a [TypeError]. *)
Theorem retention_edges (j : job) :
  (pinned j = true -> decide j = Done Skip)
  /\ (pinned j = false -> created_at j = None -> expires_at j = None ->
      decide j = Done Keep)
  /\ (forall c : datetime,
         pinned j = false -> created_at j = Some c -> aware c = false ->
         decide j = Failed TypeError)
  /\ (forall e : datetime,
         pinned j = false -> created_at j = None ->
         has_raw_audio j = true -> expires_at j = Some e ->
         aware e = false -> decide j = Failed TypeError).
Proof.
  subst decide. unfold retention_action, raw_audio_action, before.
  repeat split.
  - intros ->. reflexivity.
  - intros -> -> ->. destruct (has_raw_audio j); reflexivity.
  - intros c -> -> ->. reflexivity.
  - intros e -> -> -> -> ->. reflexivity.
Qed.

End PurgeFacts.

Section PurgeFiles.

Import Purge.

(** What is left of a directory once its files are unlinked: its
    subdirectories, without their files. *)
Lemma unlink_files_dir (name : string) (es : list node) :
  unlink_files (Dir name es)
  = Dir name (map unlink_files (filter is_subdir es)).
Proof.
  cbn [unlink_files]. f_equal.
  induction es as [|[n | n sub] es IH]; cbn [filter is_subdir map].
  - reflexivity.
  - exact IH.
  - rewrite IH. reflexivity.
Qed.

Lemma remove_tree_dir (name : string) (es : list node) :
  remove_tree (Some (Dir name es))
  = if existsb is_subdir es then
      (Some (Dir name (map unlink_files (filter is_subdir es))),
       Failed OSError)
    else (None, Done tt).
Proof.
  unfold remove_tree. rewrite unlink_files_dir.
  induction es as [|[n | n sub] es IH]; cbn [filter is_subdir existsb map orb].
  - reflexivity.
  - exact IH.
  - reflexivity.
Qed.

(** Removing an upload directory works only when it is flat. With a
    directory inside it, as [run_alignment_job] always creates two,
    [rmdir] raises [OSError] after the files are gone: [purge_raw_audio]
    leaves the emptied directories behind, and [purge_job] has by then
    deleted the job file and never reaches the results. *)
Theorem purge_uploads_with_subdirectories (fs : artefacts) (name : string)
    (es : list node) :
  uploads fs = Some (Dir name es) ->
  let left := map unlink_files (filter is_subdir es) in
  (existsb is_subdir es = false ->
   purge_raw_audio fs false = (with_uploads fs None, Done 1%Z))
  /\ (existsb is_subdir es = true ->
      left <> []
      /\ purge_raw_audio fs false
         = (with_uploads fs (Some (Dir name left)), Failed OSError)
      /\ purge_job fs false
         = ({| job_json := false;
               uploads := Some (Dir name left);
               results := results fs |}, Failed OSError)).
Proof.
  intros Hup left.
  unfold purge_raw_audio, purge_job. cbn [uploads job_json results].
  rewrite Hup. cbn [is_dir negb]. rewrite remove_tree_dir. fold left.
  split; intro E; rewrite E.
  - reflexivity.
  - split; [|split; reflexivity].
    subst left. clear Hup.
    induction es as [|[n | n sub] es IH]; cbn [existsb is_subdir orb] in E;
      [discriminate | exact (IH E) | discriminate].
Qed.

Lemma purge_uploads_with_subdirectories_witness :
  let fs := {| job_json := true;
               uploads := Some (service_uploads "job" "a.wav" "b.wav");
               results := Some (Dir "job" [File "aligned.wav"]) |} in
  uploads fs = Some (service_uploads "job" "a.wav" "b.wav")
  /\ purge_job fs false
     = ({| job_json := false;
           uploads := Some (Dir "job" [Dir "inhouse" []; Dir "external" []]);
           results := Some (Dir "job" [File "aligned.wav"]) |},
        Failed OSError).
Proof.
  intro fs. split; [reflexivity|].
  destruct (@purge_uploads_with_subdirectories fs "job"
              [Dir "inhouse" [File "a.wav"]; Dir "external" [File "b.wav"]]
              eq_refl) as [_ H].
  destruct (H eq_refl) as (_ & _ & Hjob). exact Hjob.
Defined.

Variables job_retention_days raw_audio_only_days now : Z.

Let run : bool -> list (string * job) -> store -> totals ->
          store * outcome totals :=
  purge_loop job_retention_days raw_audio_only_days now.

Lemma update_same (fs : store) (job_id k : string) :
  update fs job_id (fs job_id) k = fs k.
Proof.
  unfold update. destruct (String.eqb k job_id) eqn:E; [|reflexivity].
  apply String.eqb_eq in E. subst k. reflexivity.
Qed.

Lemma update_other (fs : store) (job_id k : string) (a : artefacts) :
  k <> job_id -> update fs job_id a k = fs k.
Proof.
  intro H. unfold update. apply String.eqb_neq in H. rewrite H. reflexivity.
Qed.

(** A dry run leaves every artefact in place and never counts a deleted
    job, upload or result, also for the jobs it reports as purged; only the
    count of raw-only purges can grow. *)
Theorem dry_run_changes_nothing (jobs : list (string * job)) :
  forall (fs : store) (t : totals),
    (forall k : string, fst (run true jobs fs t) k = fs k)
    /\ (forall t' : totals,
           snd (run true jobs fs t) = Done t' ->
           jobs_deleted t' = jobs_deleted t
           /\ uploads_deleted t' = uploads_deleted t
           /\ results_deleted t' = results_deleted t
           /\ (raw_only_deleted t <= raw_only_deleted t')%Z).
Proof.
  subst run. induction jobs as [|[job_id j] jobs IH]; intros fs t.
  - cbn [purge_loop fst snd]. split; [reflexivity|].
    intros t' H. injection H as <-. repeat split; lia.
  - cbn [purge_loop].
    destruct (retention_action job_retention_days raw_audio_only_days now j)
      as [[| | |]|e].
    + apply IH.
    + cbn [purge_job].
      match goal with
      | |- context [purge_loop _ _ _ _ _ ?fs' ?t'] =>
          destruct (IH fs' t') as [Hfs Ht]
      end.
      split.
      * intro k. rewrite Hfs. apply update_same.
      * intros t' H. destruct (Ht t' H) as (H1 & H2 & H3 & H4).
        cbn [jobs_deleted uploads_deleted results_deleted raw_only_deleted]
          in *.
        repeat split; lia.
    + unfold purge_raw_audio.
      destruct (negb (is_dir (uploads (fs job_id))));
        match goal with
        | |- context [purge_loop _ _ _ _ _ ?fs' ?t'] =>
            destruct (IH fs' t') as [Hfs Ht]
        end;
        (split;
         [intro k; rewrite Hfs; apply update_same
         |intros t' H; destruct (Ht t' H) as (H1 & H2 & H3 & H4);
          cbn [jobs_deleted uploads_deleted results_deleted raw_only_deleted
               Z.eqb] in *;
          repeat split; lia]).
    + apply IH.
    + cbn [fst snd]. split; [reflexivity | discriminate].
Qed.

(** The artefacts of a pinned job survive every run, finished or stopped by
    an exception, dry or not. *)
Theorem pinned_jobs_survive (dry_run : bool) (k : string)
    (jobs : list (string * job)) :
  (forall j : job, In (k, j) jobs -> pinned j = true) ->
  forall (fs : store) (t : totals), fst (run dry_run jobs fs t) k = fs k.
Proof.
  subst run. induction jobs as [|[job_id j] jobs IH]; intros Hpin fs t;
    [reflexivity|].
  assert (Hrest : forall j' : job, In (k, j') jobs -> pinned j' = true)
    by (intros j' Hin; apply Hpin; right; exact Hin).
  assert (Hother : pinned j = false -> k <> job_id).
  { intros Hp E. subst job_id.
    rewrite (Hpin j (or_introl eq_refl)) in Hp. discriminate. }
  cbn [purge_loop].
  destruct (retention_action job_retention_days raw_audio_only_days now j)
    as [[| | |]|e] eqn:Ha;
    try (apply IH; exact Hrest); try reflexivity;
    (assert (Hp : pinned j = false);
     [unfold retention_action in Ha; destruct (pinned j);
      [discriminate | reflexivity]|]).
  - destruct (purge_job (fs job_id) dry_run) as [a [[[dj du] dr]|e]];
      cbn [fst]; [rewrite IH by exact Hrest|];
      apply update_other, Hother, Hp.
  - destruct (purge_raw_audio (fs job_id) dry_run) as [a [removed|e]];
      cbn [fst]; [rewrite IH by exact Hrest|];
      apply update_other, Hother, Hp.
Qed.

(** The loop over two lists of job files in a row is the loop over the
    second, started where the first ended; an exception in the first ends
    the run. *)
Lemma purge_loop_app (dry_run : bool) (pre post : list (string * job)) :
  forall (fs : store) (t : totals),
    run dry_run (pre ++ post) fs t
    = match run dry_run pre fs t with
      | (fs1, Done t1) => run dry_run post fs1 t1
      | (fs1, Failed e) => (fs1, Failed e)
      end.
Proof.
  subst run. induction pre as [|[job_id j] pre IH]; intros fs t;
    [reflexivity|].
  cbn [app purge_loop].
  destruct (retention_action job_retention_days raw_audio_only_days now j)
    as [[| | |]|e]; try apply IH; try reflexivity.
  - destruct (purge_job (fs job_id) dry_run) as [a [[[dj du] dr]|e]];
      [apply IH | reflexivity].
  - destruct (purge_raw_audio (fs job_id) dry_run) as [a [removed|e]];
      [apply IH | reflexivity].
Qed.

(** A job that is not pinned and whose [created_at] carries no time zone
    stops the run with a [TypeError]: what was purged before it stays
    purged, and the job files after it are never looked at. *)
Theorem naive_timestamp_stops_run (dry_run : bool)
    (pre rest : list (string * job)) (job_id : string) (j : job)
    (c : datetime) (fs fs1 : store) (t t1 : totals) :
  run dry_run pre fs t = (fs1, Done t1) ->
  pinned j = false ->
  created_at j = Some c ->
  aware c = false ->
  run dry_run (pre ++ (job_id, j) :: rest) fs t = (fs1, Failed TypeError).
Proof.
  intros Hpre Hp Hc Ha. rewrite purge_loop_app, Hpre.
  subst run. cbn [purge_loop].
  unfold retention_action, before. rewrite Hp, Hc, Ha. reflexivity.
Qed.

(** Job files without [created_at] and [expires_at], which is how
    [create_alignment_job] writes them, are all kept: the run ends normally
    with nothing removed and nothing counted, however old the jobs are. *)
Theorem jobs_without_timestamps_are_kept (dry_run : bool)
    (jobs : list (string * job)) :
  (forall (job_id : string) (j : job),
      In (job_id, j) jobs -> created_at j = None /\ expires_at j = None) ->
  forall (fs : store) (t : totals), run dry_run jobs fs t = (fs, Done t).
Proof.
  subst run. induction jobs as [|[job_id j] jobs IH]; intros H fs t;
    [reflexivity|].
  destruct (H job_id j (or_introl eq_refl)) as [Hc He].
  cbn [purge_loop]. unfold retention_action, raw_audio_action.
  rewrite Hc, He.
  assert (Hrest : forall (job_id' : string) (j' : job),
             In (job_id', j') jobs ->
             created_at j' = None /\ expires_at j' = None)
    by (intros job_id' j' Hin; apply (H job_id' j'); right; exact Hin).
  destruct (pinned j), (has_raw_audio j); apply IH; exact Hrest.
Qed.

End PurgeFiles.

(** The retention periods of the script's defaults, a job file as the
    service writes it, and a store in which every job has the service's
    upload directory. *)
Lemma pinned_jobs_survive_witness :
  let old := {| Purge.created_at :=
                  Some {| Purge.aware := true; Purge.instant := 0 |};
                Purge.expires_at := None;
                Purge.has_raw_audio := true;
                Purge.pinned := false |} in
  let kept := {| Purge.created_at :=
                   Some {| Purge.aware := true; Purge.instant := 0 |};
                 Purge.expires_at := None;
                 Purge.has_raw_audio := true;
                 Purge.pinned := true |} in
  let fs := fun _ : string =>
              {| Purge.job_json := true;
                 Purge.uploads := Some (Purge.Dir "u"%string [Purge.File "a.wav"%string]);
                 Purge.results := None |} in
  let t := {| Purge.jobs_deleted := 0; Purge.uploads_deleted := 0;
              Purge.results_deleted := 0; Purge.raw_only_deleted := 0 |} in
  let jobs := [("a"%string, old); ("b"%string, kept)] in
  let out := Purge.purge_loop 90 30 (Purge.days 100) false jobs fs t in
  fst out "b"%string = fs "b"%string
  /\ Purge.job_json (fst out "a"%string) = false
  /\ snd out
     = Purge.Done {| Purge.jobs_deleted := 1; Purge.uploads_deleted := 1;
                     Purge.results_deleted := 0;
                     Purge.raw_only_deleted := 0 |}.
Proof.
  intros old kept fs t jobs out. split; [|split; reflexivity].
  apply (@pinned_jobs_survive 90 30 (Purge.days 100) false "b"%string jobs).
  intros j [H | [H | []]]; [discriminate H | injection H as <-; reflexivity].
Defined.

Lemma naive_timestamp_stops_run_witness :
  let naive := {| Purge.created_at :=
                    Some {| Purge.aware := false; Purge.instant := 0 |};
                  Purge.expires_at := None;
                  Purge.has_raw_audio := true;
                  Purge.pinned := false |} in
  let old := {| Purge.created_at :=
                  Some {| Purge.aware := true; Purge.instant := 0 |};
                Purge.expires_at := None;
                Purge.has_raw_audio := true;
                Purge.pinned := false |} in
  let fs := fun _ : string =>
              {| Purge.job_json := true;
                 Purge.uploads := None;
                 Purge.results := None |} in
  let t := {| Purge.jobs_deleted := 0; Purge.uploads_deleted := 0;
              Purge.results_deleted := 0; Purge.raw_only_deleted := 0 |} in
  Purge.purge_loop 90 30 (Purge.days 100) false
    ([] ++ [("a"%string, naive); ("b"%string, old)]) fs t
  = (fs, Purge.Failed Purge.TypeError).
Proof.
  intros naive old fs t.
  apply (@naive_timestamp_stops_run 90 30 (Purge.days 100) false []
           [("b"%string, old)] "a"%string naive
           {| Purge.aware := false; Purge.instant := 0 |} fs fs t t);
    reflexivity.
Defined.

Lemma jobs_without_timestamps_are_kept_witness :
  let written := {| Purge.created_at := None;
                    Purge.expires_at := None;
                    Purge.has_raw_audio := true;
                    Purge.pinned := false |} in
  let fs := fun job_id : string =>
              {| Purge.job_json := true;
                 Purge.uploads :=
                   Some (Purge.service_uploads job_id "a.wav"%string "b.wav"%string);
                 Purge.results := None |} in
  let t := {| Purge.jobs_deleted := 0; Purge.uploads_deleted := 0;
              Purge.results_deleted := 0; Purge.raw_only_deleted := 0 |} in
  Purge.purge_loop 90 30 (Purge.days 100000) false
    [("a"%string, written); ("b"%string, written)] fs t
  = (fs, Purge.Done t).
Proof.
  intros written fs t.
  apply (@jobs_without_timestamps_are_kept 90 30 (Purge.days 100000) false
           [("a"%string, written); ("b"%string, written)]).
  intros job_id j [H | [H | []]]; injection H as _ <-; split; reflexivity.
Defined.
